(** * route_yolo_ros2: the YoloDetector node of [detect.py]

    A shallow embedding of [route_yolo_ros2/detect.py].  The node keeps one
    cached camera frame ([self.cam_image]), preprocesses incoming frames
    (letterbox resize, optional double flip) and answers [detect_object]
    requests by running a detector on the cached frame, gating the boxes by
    mode and reporting the number of accepted boxes and the largest relative
    box area.

    Modelling conventions.
    - numpy arrays are nested lists (rows, columns, channels) of integers;
      an array object lives in a store and is named by a reference, so that
      [copy()] and the in-place drawing calls of OpenCV can be told apart;
    - the float values of the detector (box coordinates, confidences, areas)
      are exact rationals [Q]: rounding is not modelled, comparison and
      truncation are;
    - recognised text is an ASCII [string];
    - the libraries the node calls (CvBridge, OpenCV's resize, colour
      conversion, range threshold and drawing, the YOLO model, the EasyOCR
      reader) are fields of a record of collaborators, the values the calls
      return; a [library] adds to them the inputs on which [cv2.cvtColor] and
      [cv2.inRange] raise [cv2.error] instead, the two calls the node feeds
      with unchecked regions and with parameter objects.  A record of
      collaborators is read as the library whose calls all return (an
      exception that leaves a callback leaves [rclpy.spin] in [main], which
      has no handler, and so ends the node);
    - Python exceptions the node's own code can raise ([KeyError] of a dict
      lookup, [AttributeError] of [None.copy()]) and the [cv2.error] of the
      two calls above are results of the monad. *)

From Stdlib Require Import QArith Ascii.
From stdpp Require Import base option list strings gmap.

Local Open Scope Z_scope.

(** ** Python built-ins used by the node *)

Module Py.

(** [int(x)] on a float: truncation towards zero. *)
Definition int (x : Q) : Z := Z.quot (Qnum x) (Z.pos (Qden x)).

(** One bound of a slice on a sequence of length [n]: a negative index
    counts from the end, and the result is clipped to [0..n]. *)
Definition slice_bound (n i : Z) : Z :=
  if i <? 0 then Z.max (i + n) 0 else Z.min i n.

(** [l[a:b]] for integer [a], [b]. *)
Definition slice {A} (l : list A) (a b : Z) : list A :=
  let n := Z.of_nat (length l) in
  let lo := slice_bound n a in
  let hi := slice_bound n b in
  take (Z.to_nat (hi - lo)) (drop (Z.to_nat lo) l).

Definition is_lower (c : ascii) : bool :=
  let n := nat_of_ascii c in (97 <=? n)%nat && (n <=? 122)%nat.

Definition upper_char (c : ascii) : ascii :=
  if is_lower c then ascii_of_nat (nat_of_ascii c - 32) else c.

(** [s.upper()] on ASCII text. *)
Fixpoint upper (s : string) : string :=
  match s with
  | EmptyString => EmptyString
  | String c s' => String (upper_char c) (upper s')
  end.

(** [s.replace(old, new)] for one-character [old] and [new]; it returns a
    new string, the receiver is immutable. *)
Fixpoint replace (old new : ascii) (s : string) : string :=
  match s with
  | EmptyString => EmptyString
  | String c s' =>
      String (if Ascii.eqb c old then new else c) (replace old new s')
  end.

(** [needle in hay] on strings. *)
Fixpoint contains (needle hay : string) : bool :=
  String.prefix needle hay ||
  match hay with
  | EmptyString => false
  | String _ hay' => contains needle hay'
  end.

End Py.

(** ** numpy arrays and the OpenCV calls with a fixed meaning *)

(** An image array of shape (rows, columns, channels). *)
Abbreviation ndarray := (list (list (list Z))).

Module Np.

Definition shape0 (a : ndarray) : nat := length a.
Definition shape1 (a : ndarray) : nat := length (default [] (head a)).
Definition shape2 (a : ndarray) : nat :=
  length (default [] (head (default [] (head a)))).

(** A proper array: every row has [w] pixels and every pixel [c] channels. *)
Definition rect (h w c : nat) (a : ndarray) : Prop :=
  length a = h ∧ Forall (λ row, length row = w ∧ Forall (λ px, length px = c) row) a.

(** [np.zeros((h, w, c))] *)
Definition zeros (h w c : nat) : ndarray :=
  replicate h (replicate w (replicate c 0)).

(** [a[y0:y1, x0:x1]] *)
Definition crop (a : ndarray) (y0 y1 x0 x1 : Z) : ndarray :=
  (λ row, Py.slice row x0 x1) <$> Py.slice a y0 y1.

(** [l[i:i+len(v)] = v] on one axis, for a slice that lies inside [l]. *)
Definition splice {A} (l : list A) (i : nat) (v : list A) : list A :=
  take i l ++ v ++ drop (i + length v) l.

(** [a[y:y+h, x:x+w] = v] where [v] has shape (h, w, _) and the region lies
    inside [a]: at the only call site both hold, so numpy neither clips the
    slice nor rejects the shapes. *)
Definition assign_region (a : ndarray) (y x : nat) (v : ndarray) : ndarray :=
  take y a
  ++ zip_with (λ row vrow, splice row x vrow) (take (length v) (drop y a)) v
  ++ drop (y + length v) a.

(** The pixel at row [i], column [j], if any. *)
Definition pixel (a : ndarray) (i j : nat) : option (list Z) :=
  a !! i ≫= (.!! j).

End Np.

Module Cv2.

Definition INTER_AREA : Z := 3.
Definition FONT_HERSHEY_SIMPLEX : Z := 0.

Inductive color_code := COLOR_BGR2RGB | COLOR_BGR2HSV.

(** [cv2.flip(src, flipCode)]: 0 flips around the x-axis (the rows change
    order), a positive code around the y-axis (each row is reversed), a
    negative code around both. *)
Definition flip (src : ndarray) (flipCode : Z) : ndarray :=
  if flipCode =? 0 then reverse src
  else if 0 <? flipCode then reverse <$> src
  else reverse (reverse <$> src).

End Cv2.

(** ** Messages, detector output, collaborators *)

(** [sensor_msgs/Image] *)
Record ROSImage := {
  msg_height : Z;
  msg_width : Z;
  msg_encoding : string;
  msg_data : list Z
}.

(** The object [get_parameter(name)] returns. *)
Record RosParameter := { param_name : string; param_value : Z }.

(** One element of [result.boxes]: [xyxy[0]], [xywh[0]] and [conf]. *)
Record Box := {
  xyxy : Q * Q * Q * Q;
  xywh : Q * Q * Q * Q;
  conf : Q
}.

Definition pt : Type := Z * Z.
Definition bgr : Type := Z * Z * Z.

(** The library calls whose results the node only passes on. *)
Record collaborators := {
  (** [CvBridge.imgmsg_to_cv2(msg, encoding)]: the array, or the text of the
      exception it raised *)
  imgmsg_to_cv2 : ROSImage → string → string + ndarray;
  (** [cv2.resize(src, dsize, dst)], the third positional argument optional *)
  cv2_resize : ndarray → Z * Z → option Z → ndarray;
  (** [cv2.cvtColor(src, code)] *)
  cv2_cvtColor : ndarray → Cv2.color_code → ndarray;
  (** [cv2.inRange(src, lowerb, upperb)] *)
  cv2_inRange : ndarray → RosParameter * RosParameter * RosParameter →
                RosParameter * RosParameter * RosParameter → ndarray;
  (** [cv2.line(img, pt1, pt2, color, thickness)]: the new content of [img] *)
  cv2_line : ndarray → pt → pt → bgr → Z → ndarray;
  (** [cv2.rectangle(img, pt1, pt2, color, thickness)] *)
  cv2_rectangle : ndarray → pt → pt → bgr → Z → ndarray;
  (** [cv2.putText(img, text, org, fontFace, fontScale, color, thickness)] *)
  cv2_putText : ndarray → string → pt → Z → Z → bgr → Z → ndarray;
  (** [YOLO(model_path).predict(source, conf=0.5, classes=[cls], ...)]: one
      list of boxes per result *)
  yolo_predict : string → ndarray → Z → list (list Box);
  (** the text of each reading of [reader.readtext(image)] *)
  reader_readtext : ndarray → list string;
  (** [str(round(x, ndigits))] inside an f-string *)
  str_round : Q → Z → string
}.

(** The library as the node meets it: the values of [calls], and for
    [cv2.cvtColor] and [cv2.inRange] the text of the [cv2.error] the call
    raises on an input, if it raises there. *)
Record library := {
  calls : collaborators;
  cvtColor_raises : ndarray → Cv2.color_code → option string;
  inRange_raises : ndarray → RosParameter * RosParameter * RosParameter →
                   RosParameter * RosParameter * RosParameter → option string
}.

(** The library whose calls all return. *)
Definition returning (E : collaborators) : library := {|
  calls := E;
  cvtColor_raises := λ _ _, None;
  inRange_raises := λ _ _ _, None
|}.

Coercion returning : collaborators >-> library.

(** ** The node: parameters, attributes, store of arrays, observable trace *)

Record parameters := {
  image_topic : string;
  coco_model_path : string;
  tire_model_path : string;
  flip_image : bool;
  image_resize : Z;
  orange_hue_l : Z;
  orange_hue_h : Z;
  orange_sat_l : Z;
  orange_sat_h : Z;
  orange_val_l : Z;
  orange_val_h : Z
}.

(** The values of [declare_parameter]. *)
Definition declared : parameters := {|
  image_topic := "/routecam/image_raw";
  coco_model_path := EmptyString;
  tire_model_path := EmptyString;
  flip_image := false;
  image_resize := 640;
  orange_hue_l := 20;
  orange_hue_h := 50;
  orange_sat_l := 200;
  orange_sat_h := 255;
  orange_val_l := 100;
  orange_val_h := 200
|}.

Definition ref : Type := nat.

(** What the node does to the outside, in order. *)
Inductive event :=
| log_info (text : string)
| log_warn (text : string)
| log_error (text : string)
| predict (model_path : string) (source : ndarray) (cls : Z)
| readtext (image : ndarray)
| publish (topic : string) (image : ndarray) (encoding : string).

Record node := {
  params : parameters;
  model_coco_path : string;
  model_tire_path : string;
  cam_image : option ref;
  heap : gmap ref ndarray;
  trace : list event
}.

Inductive exn :=
| KeyError
| AttributeError
| Cv2Error (text : string)
| DanglingReference.

Inductive outcome (A : Type) :=
| Returns (a : A)
| Raises (e : exn).
Arguments Returns {A} a.
Arguments Raises {A} e.

(** A method body: it changes the node and returns or raises. *)
Definition M (A : Type) : Type := node → outcome A * node.

#[global] Instance M_ret : MRet M := λ A a s, (Returns a, s).
#[global] Instance M_bind : MBind M := λ A B f m s,
  match m s with
  | (Returns a, s') => f a s'
  | (Raises e, s') => (Raises e, s')
  end.

Definition raise {A} (e : exn) : M A := λ s, (Raises e, s).

Definition get_param {A} (f : parameters → A) : M A := λ s, (Returns (f (params s)), s).

Definition get_attr {A} (f : node → A) : M A := λ s, (Returns (f s), s).

Definition with_cam_image (v : option ref) (s : node) : node :=
  {| params := params s; model_coco_path := model_coco_path s;
     model_tire_path := model_tire_path s; cam_image := v;
     heap := heap s; trace := trace s |}.

Definition with_heap (h : gmap ref ndarray) (s : node) : node :=
  {| params := params s; model_coco_path := model_coco_path s;
     model_tire_path := model_tire_path s; cam_image := cam_image s;
     heap := h; trace := trace s |}.

Definition with_events (evs : list event) (s : node) : node :=
  {| params := params s; model_coco_path := model_coco_path s;
     model_tire_path := model_tire_path s; cam_image := cam_image s;
     heap := heap s; trace := trace s ++ evs |}.

Definition set_cam_image (v : option ref) : M unit := λ s,
  (Returns (), with_cam_image v s).

Definition emit (e : event) : M unit := λ s, (Returns (), with_events [e] s).

(** A new array object with content [a]. *)
Definition alloc (a : ndarray) : M ref := λ s,
  let r := fresh (dom (heap s)) in (Returns r, with_heap (<[r := a]> (heap s)) s).

(** The content of an array object. *)
Definition load (r : ref) : M ndarray := λ s,
  match heap s !! r with
  | Some a => (Returns a, s)
  | None => (Raises DanglingReference, s)
  end.

(** An in-place write to an array object. *)
Definition store (r : ref) (a : ndarray) : M unit := λ s,
  match heap s !! r with
  | Some _ => (Returns (), with_heap (<[r := a]> (heap s)) s)
  | None => (Raises DanglingReference, s)
  end.

(** [a.copy()] *)
Definition copy (r : ref) : M ref := a ← load r; alloc a.

(** [cv2.cvtColor(src, code)] *)
Definition cvtColor (L : library) (src : ndarray) (code : Cv2.color_code)
    : M ndarray :=
  match cvtColor_raises L src code with
  | Some text => raise (Cv2Error text)
  | None => mret (cv2_cvtColor (calls L) src code)
  end.

(** [cv2.inRange(src, lowerb, upperb)] *)
Definition inRange (L : library) (src : ndarray)
    (lowerb upperb : RosParameter * RosParameter * RosParameter) : M ndarray :=
  match inRange_raises L src lowerb upperb with
  | Some text => raise (Cv2Error text)
  | None => mret (cv2_inRange (calls L) src lowerb upperb)
  end.

(** A [for] loop that threads its local variables through the body. *)
Fixpoint for_in {A B} (l : list A) (body : B → A → M B) (acc : B) : M B :=
  match l with
  | [] => mret acc
  | x :: l' => acc' ← body acc x; for_in l' body acc'
  end.

(** [a > b] on floats. *)
Definition Qgtb (a b : Q) : bool := negb (Qle_bool a b).

(** The reply of the [detect_object] service. *)
Record DetectObject_Response := { count : Z; size : Q }.

(** ** The methods of [YoloDetector] *)

Section YoloDetector.

Variable L : library.

Local Abbreviation E := (calls L).

Definition init (p : parameters) : node := {|
  params := p;
  model_coco_path := coco_model_path p;
  model_tire_path := tire_model_path p;
  cam_image := None;
  heap := ∅;
  trace := [log_info "YOLO Service-Based Detector Initialized"]
|}.

(** The frames of the bridge have three axes, so [c] is [img.shape[2]]. *)
Definition letterbox_resize (img : ndarray) (size : Z * Z) : ndarray :=
  let h := Np.shape0 img in
  let w := Np.shape1 img in
  let c := Np.shape2 img in
  if Nat.eqb h w then cv2_resize E img size (Some Cv2.INTER_AREA)
  else
    let dif := Nat.max h w in
    let mask := Np.zeros dif dif c in
    let y := Nat.div (dif - h) 2 in
    let x := Nat.div (dif - w) 2 in
    let mask := Np.assign_region mask y x img in
    cv2_resize E mask size None.

Definition image_callback (msg : ROSImage) : M unit :=
  match imgmsg_to_cv2 E msg "bgr8" with
  | inl e => emit (log_error ("CVBridge error: " +:+ e))
  | inr img =>
      resize_val ← get_param image_resize;
      let img := if 0 <? resize_val
                 then letterbox_resize img (resize_val, resize_val) else img in
      flip ← get_param flip_image;
      let img := if flip : bool then Cv2.flip (Cv2.flip img 0) 1 else img in
      r ← alloc img;
      set_cam_image (Some r)
  end.

Fixpoint scan_readings (readings : list string) : M bool :=
  match readings with
  | [] => mret false
  | text :: readings' =>
      let _ := Py.replace "0" "O" text in
      emit (log_info ("Sign reads: " +:+ text));;
      if Py.contains "STOP" (Py.upper text) then mret true
      else scan_readings readings'
  end.

(** The region goes to [cv2.cvtColor] as it was sliced, also when the slice
    is empty. *)
Definition stopsign_ocr_check (sign_image : ndarray) : M bool :=
  rgb ← cvtColor L sign_image Cv2.COLOR_BGR2RGB;
  emit (readtext rgb);;
  scan_readings (reader_readtext E rgb).

(** The bounds of the range are the objects [get_parameter] returns; the
    code does not take their [value]. *)
Definition orange_vest_mask (person_image : ndarray) : M unit :=
  hue_l ← get_param orange_hue_l; sat_l ← get_param orange_sat_l;
  val_l ← get_param orange_val_l;
  hue_h ← get_param orange_hue_h; sat_h ← get_param orange_sat_h;
  val_h ← get_param orange_val_h;
  let tcol_lower := (Build_RosParameter "orange.hue_l" hue_l,
                     Build_RosParameter "orange.sat_l" sat_l,
                     Build_RosParameter "orange.val_l" val_l) in
  let tcol_upper := (Build_RosParameter "orange.hue_h" hue_h,
                     Build_RosParameter "orange.sat_h" sat_h,
                     Build_RosParameter "orange.val_h" val_h) in
  hsv_image ← cvtColor L person_image Cv2.COLOR_BGR2HSV;
  mask ← inRange L hsv_image tcol_lower tcol_upper;
  emit (publish "vest_mask" mask "mono8").

(** [image[int(y1):int(y2), int(x1):int(x2)]] for [xyxy = (x1, y1, x2, y2)] *)
Definition box_region (img : ndarray) (b : Box) : ndarray :=
  let '(x1, y1, x2, y2) := xyxy b in
  Np.crop img (Py.int y1) (Py.int y2) (Py.int x1) (Py.int x2).

Definition box_pt1 (b : Box) : pt :=
  let '(x1, y1, _, _) := xyxy b in (Py.int x1, Py.int y1).
Definition box_pt2 (b : Box) : pt :=
  let '(_, _, x2, y2) := xyxy b in (Py.int x2, Py.int y2).
Definition box_label_org (b : Box) : pt :=
  let '(x1, y1, _, _) := xyxy b in (Py.int x1, Py.int y1 - 10).

(** [100 * ((xywh[0][2] * xywh[0][3]) / image_size)] *)
Definition box_area (image_size : Z) (b : Box) : Q :=
  let '(_, _, w, h) := xywh b in
  (100 * ((w * h) / inject_Z image_size))%Q.

(** A drawing call on the array object [r]. *)
Definition draw (r : ref) (f : ndarray → ndarray) : M unit :=
  a ← load r; store r (f a).

(** The body of the inner loop of [analyze_results]; the pair is
    ([detected], [biggest_bbox]). *)
Definition analyze_box (image output_image : ref) (mode : string)
    (image_size : Z) (acc : Z * Q) (box : Box) : M (Z * Q) :=
  let '(detected, biggest_bbox) := acc in
  skip ←
    (if String.eqb mode "stop" then
       img ← load image;
       let sign_image := box_region img box in
       found ← stopsign_ocr_check sign_image;
       if negb found then
         draw output_image
           (λ o, cv2_line E o (box_pt1 box) (box_pt2 box) (0, 0, 255) 3);;
         draw output_image
           (λ o, cv2_putText E o
                   ("Fake " +:+ mode +:+ ", " +:+ str_round E (conf box) 2)
                   (box_label_org box) Cv2.FONT_HERSHEY_SIMPLEX 1 (0, 0, 255) 2);;
         mret true
       else mret false
     else mret false);
  if skip : bool then mret (detected, biggest_bbox)
  else
    (if String.eqb mode "person" then
       img ← load image;
       let person_image := box_region img box in
       orange_vest_mask person_image
     else mret ());;
    let detected := detected + 1 in
    let area := box_area image_size box in
    let biggest_bbox := if Qgtb area biggest_bbox then area else biggest_bbox in
    draw output_image
      (λ o, cv2_rectangle E o (box_pt1 box) (box_pt2 box) (0, 0, 255) 2);;
    draw output_image
      (λ o, cv2_putText E o (mode +:+ ", " +:+ str_round E (conf box) 2)
              (box_label_org box) Cv2.FONT_HERSHEY_SIMPLEX 1 (0, 0, 255) 2);;
    mret (detected, biggest_bbox).

Definition analyze_results (results : list (list Box)) (image : ref)
    (mode : string) : M (Z * Q) :=
  let detected := 0 in
  let biggest_bbox := 0%Q in
  img ← load image;
  let image_size := Z.of_nat (Np.shape0 img) * Z.of_nat (Np.shape1 img) in
  output_image ← copy image;
  acc ← for_in results
        (λ acc boxes,
           for_in boxes (analyze_box image output_image mode image_size) acc)
        (detected, biggest_bbox);
  out ← load output_image;
  emit (publish "yolo_detection_window" out "bgr8");;
  mret acc.

(** [d[key]] on a dict literal. *)
Definition subscript {V} (d : gmap string V) (key : string) : M V :=
  match d !! key with
  | Some v => mret v
  | None => raise KeyError
  end.

(** [torch.cuda.empty_cache()] and [gc.collect()] change nothing the node
    can observe and are left out. *)
Definition detect (mode : string) : M (Z * Q) :=
  coco ← get_attr model_coco_path;
  tire ← get_attr model_tire_path;
  model_path ← subscript
    (<["stop" := coco]> (<["tire" := tire]> (<["person" := coco]> ∅))) mode;
  cam ← get_attr cam_image;
  match cam with
  | None => raise AttributeError
  | Some cam =>
      im ← copy cam;
      let target_ids : gmap string Z :=
        <["person" := 0]> (<["stop" := 11]> (<["tire" := 0]> ∅)) in
      cls ← subscript target_ids mode;
      source ← load im;
      emit (predict model_path source cls);;
      let results := yolo_predict E model_path source cls in
      '(count, biggest) ← analyze_results results im mode;
      set_cam_image None;;
      mret (count, biggest)
  end.

Definition handle_detection_request (target : string)
    : M DetectObject_Response :=
  cam ← get_attr cam_image;
  match cam with
  | None =>
      emit (log_warn "No image received yet");;
      mret {| count := -1; size := 0 |}
  | Some _ =>
      if negb (bool_decide (target ∈ ["stop"; "tire"; "person"])) then
        emit (log_warn ("Unknown detection target: " +:+ target));;
        mret {| count := 0; size := 0 |}
      else
        '(count, size) ← detect target;
        mret {| count := count; size := size |}
  end.

(** ** The executor: callbacks run one at a time *)

Inductive callback :=
| on_image (msg : ROSImage)
| on_request (target : string).

(** One callback: the reply of a request, nothing for a frame. *)
Definition dispatch (cb : callback) : M (option DetectObject_Response) :=
  match cb with
  | on_image msg => image_callback msg;; mret None
  | on_request target => r ← handle_detection_request target; mret (Some r)
  end.

(** [rclpy.spin(node)] over the callbacks that arrive: the replies sent and
    the node at the end.  [main] has no handler around [spin], so an
    exception that leaves a callback ends the run. *)
Fixpoint spin (cbs : list callback) (s : node)
    : list DetectObject_Response * node :=
  match cbs with
  | [] => ([], s)
  | cb :: cbs' =>
      match dispatch cb s with
      | (Returns r, s') =>
          let '(rs, s'') := spin cbs' s' in
          (from_option (λ r, [r]) [] r ++ rs, s'')
      | (Raises _, s') => ([], s')
      end
  end.

End YoloDetector.

(** ** Concrete collaborators, for running the node on examples *)

Module Demo.

(** [k] consecutive chunks of [n] elements. *)
Fixpoint chunks {A} (n k : nat) (l : list A) : list (list A) :=
  match k with
  | O => []
  | S k' => take n l :: chunks n k' (drop n l)
  end.

(** A bridge that accepts packed three-channel data of the right length. *)
Definition decode (msg : ROSImage) (encoding : string) : string + ndarray :=
  let h := Z.to_nat (msg_height msg) in
  let w := Z.to_nat (msg_width msg) in
  if bool_decide (msg_encoding msg = encoding)
     && Nat.eqb (length (msg_data msg)) (h * w * 3)
  then inr (chunks w h (chunks 3 (h * w) (msg_data msg)))
  else inl "unsupported image"%string.

(** Nearest-neighbour resize to [dsize = (width, height)]. *)
Definition nearest (src : ndarray) (dsize : Z * Z) (dst : option Z) : ndarray :=
  let h := Np.shape0 src in
  let w := Np.shape1 src in
  let c := Np.shape2 src in
  let W := Z.to_nat dsize.1 in
  let H := Z.to_nat dsize.2 in
  (λ i, (λ j, default (replicate c 0)
                (Np.pixel src (Nat.div (i * h) H) (Nat.div (j * w) W)))
        <$> seq 0 W) <$> seq 0 H.

Definition convert (src : ndarray) (code : Cv2.color_code) : ndarray :=
  match code with
  | Cv2.COLOR_BGR2RGB => fmap (M := list) reverse <$> src
  | Cv2.COLOR_BGR2HSV => src
  end.

Definition within (lo hi : RosParameter) (v : Z) : bool :=
  (param_value lo <=? v) && (v <=? param_value hi).

Definition threshold (src : ndarray)
    (lowerb upperb : RosParameter * RosParameter * RosParameter) : ndarray :=
  let '(l0, l1, l2) := lowerb in
  let '(u0, u1, u2) := upperb in
  fmap (M := list)
    (λ px, match px with
           | [a; b; c] =>
               if within l0 u0 a && within l1 u1 b && within l2 u2 c
               then [255] else [0]
           | _ => [0]
           end) <$> src.

(** Colour the pixel at point [p = (x, y)], if the image has one. *)
Definition paint (img : ndarray) (p : pt) (color : bgr) : ndarray :=
  let '(x, y) := p in
  let '(b, g, r) := color in
  if (x <? 0) || (y <? 0) then img
  else match img !! Z.to_nat y with
       | Some row => <[Z.to_nat y := <[Z.to_nat x := [b; g; r]]> row]> img
       | None => img
       end.

Definition mark (img : ndarray) (pt1 pt2 : pt) (color : bgr) (thickness : Z)
    : ndarray :=
  paint (paint img pt1 color) pt2 color.

Definition caption (img : ndarray) (text : string) (org : pt)
    (fontFace fontScale : Z) (color : bgr) (thickness : Z) : ndarray :=
  paint img org color.

(** Collaborators with a scripted detector and reader. *)
Definition scripted (results : list (list Box)) (ocr : ndarray → list string)
    : collaborators := {|
  imgmsg_to_cv2 := decode;
  cv2_resize := nearest;
  cv2_cvtColor := convert;
  cv2_inRange := threshold;
  cv2_line := mark;
  cv2_rectangle := mark;
  cv2_putText := caption;
  yolo_predict := λ _ _ _, results;
  reader_readtext := ocr;
  str_round := λ _ _, "0.9"%string
|}.

(** The declared parameters with another size and flip flag. *)
Definition config (resize : Z) (flip : bool) : parameters := {|
  image_topic := image_topic declared;
  coco_model_path := "coco.pt";
  tire_model_path := "tire.pt";
  flip_image := flip;
  image_resize := resize;
  orange_hue_l := orange_hue_l declared;
  orange_hue_h := orange_hue_h declared;
  orange_sat_l := orange_sat_l declared;
  orange_sat_h := orange_sat_h declared;
  orange_val_l := orange_val_l declared;
  orange_val_h := orange_val_h declared
|}.

(** A packed bgr8 message. *)
Definition bgr8 (h w : Z) (data : list Z) : ROSImage :=
  {| msg_height := h; msg_width := w; msg_encoding := "bgr8"; msg_data := data |}.

(** An array without a pixel: no row, or rows without a column. *)
Definition no_pixel (img : ndarray) : bool :=
  forallb (λ row, match row with [] => true | _ :: _ => false end) img.

(** The scripted library with the two errors of OpenCV: [cv2.cvtColor] on an
    array without a pixel, [cv2.inRange] on bounds that are objects. *)
Definition opencv (results : list (list Box)) (ocr : ndarray → list string)
    : library := {|
  calls := scripted results ocr;
  cvtColor_raises := λ src _,
    if no_pixel src then Some "(-215:Assertion failed) !_src.empty()"%string
    else None;
  inRange_raises := λ _ _ _, Some "lowerb is not a numerical tuple"%string
|}.

(** An [h] by [w] frame of one colour. *)
Definition plain (h w : nat) (px : list Z) : ndarray :=
  replicate h (replicate w px).

(** A node whose cache holds [frame]. *)
Definition holding (frame : ndarray) : node :=
  with_cam_image (Some 0%nat) (with_heap {[ 0%nat := frame ]} (init declared)).

(** A box with corners [(x1, y1)], [(x2, y2)]. *)
Definition box (x1 y1 x2 y2 : Z) : Box := {|
  xyxy := (inject_Z x1, inject_Z y1, inject_Z x2, inject_Z y2);
  xywh := (inject_Z (x1 + x2) / 2, inject_Z (y1 + y2) / 2,
           inject_Z (x2 - x1), inject_Z (y2 - y1))%Q;
  conf := 9 # 10
|}.

(** A reader that rejects a region whose first pixel is red, the colour of
    the annotations, and reads STOP on any other. *)
Definition rejects_red (img : ndarray) : list string :=
  match img with
  | ([255; 0; 0] :: _) :: _ => ["FAKE"%string]
  | _ => ["STOP"%string]
  end.

End Demo.

(** ** Reference functions

    What the methods compute and emit, written as plain functions of the
    cached frame and the detector's boxes.  The run lemmas below prove that
    the methods agree with them; the properties are then read off. *)

(** Some reading contains STOP after upper-casing. *)
Fixpoint reads_stop (readings : list string) : bool :=
  match readings with
  | [] => false
  | text :: readings' =>
      Py.contains "STOP" (Py.upper text) || reads_stop readings'
  end.

(** The log lines of one scan: every reading up to the first match. *)
Fixpoint scan_log (readings : list string) : list event :=
  match readings with
  | [] => []
  | text :: readings' =>
      log_info ("Sign reads: " +:+ text)
      :: (if Py.contains "STOP" (Py.upper text) then [] else scan_log readings')
  end.

(** The validator as section 4.3 of the specification words it: each string
    is normalised (0 becomes O) before the case-insensitive test. *)
Definition validate_spec (readings : list string) : bool :=
  existsb (λ text, Py.contains "STOP" (Py.upper (Py.replace "0" "O" text)))
    readings.

(** A rotation by 180 degrees as the specification words it: the pixel at
    (i, j) of the result is the pixel at (h-1-i, w-1-j) of the input. *)
Definition rot180 (img : ndarray) : ndarray :=
  let h := Np.shape0 img in
  let w := Np.shape1 img in
  (λ i, (λ j, default [] (Np.pixel img (h - 1 - i) (w - 1 - j))) <$> seq 0 w)
  <$> seq 0 h.

(** The contract of [cv2.resize] the letterbox step relies on: a non-empty
    array comes back with [dsize = (width, height)] and its channels. *)
Definition resizes (E : collaborators) : Prop :=
  ∀ (src : ndarray) (dsize : Z * Z) (dst : option Z) (h w c : nat),
    (0 < h)%nat → (0 < w)%nat → Np.rect h w c src →
    0 < dsize.1 → 0 < dsize.2 →
    Np.rect (Z.to_nat dsize.2) (Z.to_nat dsize.1) c (cv2_resize E src dsize dst).

(** The same collaborators with other drawing calls. *)
Definition with_drawing (E : collaborators)
    (line rectangle : ndarray → pt → pt → bgr → Z → ndarray)
    (putText : ndarray → string → pt → Z → Z → bgr → Z → ndarray)
    : collaborators := {|
  imgmsg_to_cv2 := imgmsg_to_cv2 E;
  cv2_resize := cv2_resize E;
  cv2_cvtColor := cv2_cvtColor E;
  cv2_inRange := cv2_inRange E;
  cv2_line := line;
  cv2_rectangle := rectangle;
  cv2_putText := putText;
  yolo_predict := yolo_predict E;
  reader_readtext := reader_readtext E;
  str_round := str_round E
|}.

(** The handler returned the reply ([n], [sz]), the size up to equality of
    rationals. *)
Definition replied (o : outcome DetectObject_Response) (n : Z) (sz : Q) : Prop :=
  match o with
  | Returns r => count r = n ∧ (size r == sz)%Q
  | Raises _ => False
  end.

Definition valid_targets : list string := ["stop"; "tire"; "person"]%string.

Definition is_predict (e : event) : bool :=
  match e with predict _ _ _ => true | _ => false end.

(** The number of detector runs recorded in a trace. *)
Definition passes (tr : list event) : nat := length (filter is_predict tr).

Definition is_image (cb : callback) : bool :=
  match cb with on_image _ => true | on_request _ => false end.

(** 1 when the cache holds a frame. *)
Definition cached (s : node) : nat :=
  match cam_image s with Some _ => 1%nat | None => 0%nat end.


(** A reading that passes the test of [stopsign_ocr_check]. *)
Definition spells_stop (text : string) : bool :=
  Py.contains "STOP" (Py.upper text).

(** The log line [stopsign_ocr_check] writes for a reading. *)
Definition sign_reads (text : string) : event :=
  log_info ("Sign reads: " +:+ text).

(** The bounds [orange_vest_mask] hands to [cv2.inRange]: the objects that
    [get_parameter] returns. *)
Definition tcol_lower (p : parameters)
    : RosParameter * RosParameter * RosParameter :=
  (Build_RosParameter "orange.hue_l" (orange_hue_l p),
   Build_RosParameter "orange.sat_l" (orange_sat_l p),
   Build_RosParameter "orange.val_l" (orange_val_l p)).

Definition tcol_upper (p : parameters)
    : RosParameter * RosParameter * RosParameter :=
  (Build_RosParameter "orange.hue_h" (orange_hue_h p),
   Build_RosParameter "orange.sat_h" (orange_sat_h p),
   Build_RosParameter "orange.val_h" (orange_val_h p)).

(** The [cv2.error] that ends the loop body of [analyze_results] at a box,
    if one does: in stop mode that of the colour conversion of the region, in
    person mode that of the conversion or else of the range threshold. *)
Definition box_raises (L : library) (p : parameters) (mode : string)
    (frame : ndarray) (box : Box) : option string :=
  if String.eqb mode "stop" then
    cvtColor_raises L (box_region frame box) Cv2.COLOR_BGR2RGB
  else if String.eqb mode "person" then
    match cvtColor_raises L (box_region frame box) Cv2.COLOR_BGR2HSV with
    | Some text => Some text
    | None =>
        inRange_raises L
          (cv2_cvtColor (calls L) (box_region frame box) Cv2.COLOR_BGR2HSV)
          (tcol_lower p) (tcol_upper p)
    end
  else None.

(** [cv2.cvtColor] rejects an array without a pixel. *)
Definition raises_on_empty (L : library) : Prop :=
  ∀ src code, (∀ i j, Np.pixel src i j = None) →
              is_Some (cvtColor_raises L src code).


(** The images handed to the text reader, in order. *)
Definition reader_inputs (tr : list event) : list ndarray :=
  omap (λ e, match e with readtext img => Some img | _ => None end) tr.

(** The vest masks published, in order. *)
Definition vest_masks (tr : list event) : list ndarray :=
  omap (λ e, match e with
             | publish topic img _ =>
                 if String.eqb topic "vest_mask" then Some img else None
             | _ => None
             end) tr.

Section Reference.

Variable E : collaborators.

Definition rgb_of (sign_image : ndarray) : ndarray :=
  cv2_cvtColor E sign_image Cv2.COLOR_BGR2RGB.

(** The mask [orange_vest_mask] publishes for a region. *)
Definition vest_mask (p : parameters) (person_image : ndarray) : ndarray :=
  cv2_inRange E (cv2_cvtColor E person_image Cv2.COLOR_BGR2HSV)
    (Build_RosParameter "orange.hue_l" (orange_hue_l p),
     Build_RosParameter "orange.sat_l" (orange_sat_l p),
     Build_RosParameter "orange.val_l" (orange_val_l p))
    (Build_RosParameter "orange.hue_h" (orange_hue_h p),
     Build_RosParameter "orange.sat_h" (orange_sat_h p),
     Build_RosParameter "orange.val_h" (orange_val_h p)).

(** Whether a box passes the gate of its mode: only stop mode has one. *)
Definition accepted (mode : string) (frame : ndarray) (box : Box) : bool :=
  if String.eqb mode "stop"
  then reads_stop (reader_readtext E (rgb_of (box_region frame box)))
  else true.

(** The counting step on ([detected], [biggest_bbox]). *)
Definition counted (image_size : Z) (acc : Z * Q) (box : Box) : Z * Q :=
  (acc.1 + 1,
   if Qgtb (box_area image_size box) acc.2 then box_area image_size box else acc.2).

Definition tally (mode : string) (frame : ndarray) (image_size : Z)
    (acc : Z * Q) (box : Box) : Z * Q :=
  if accepted mode frame box then counted image_size acc box else acc.

(** What the pass draws for one box on the annotation buffer [o]. *)
Definition annotate (mode : string) (frame : ndarray) (o : ndarray) (box : Box)
    : ndarray :=
  if accepted mode frame box then
    cv2_putText E
      (cv2_rectangle E o (box_pt1 box) (box_pt2 box) (0, 0, 255) 2)
      (mode +:+ ", " +:+ str_round E (conf box) 2)
      (box_label_org box) Cv2.FONT_HERSHEY_SIMPLEX 1 (0, 0, 255) 2
  else
    cv2_putText E
      (cv2_line E o (box_pt1 box) (box_pt2 box) (0, 0, 255) 3)
      ("Fake " +:+ mode +:+ ", " +:+ str_round E (conf box) 2)
      (box_label_org box) Cv2.FONT_HERSHEY_SIMPLEX 1 (0, 0, 255) 2.

(** What the pass shows to the reader and publishes for one box. *)
Definition box_events (p : parameters) (mode : string) (frame : ndarray)
    (box : Box) : list event :=
  if String.eqb mode "stop" then
    readtext (rgb_of (box_region frame box))
    :: scan_log (reader_readtext E (rgb_of (box_region frame box)))
  else if String.eqb mode "person" then
    [publish "vest_mask" (vest_mask p (box_region frame box)) "mono8"]
  else [].

Definition frame_area (frame : ndarray) : Z :=
  Z.of_nat (Np.shape0 frame) * Z.of_nat (Np.shape1 frame).

(** The pair ([count], [biggest]) a pass over [boxes] returns. *)
Definition pass_result (mode : string) (frame : ndarray) (boxes : list Box)
    : Z * Q :=
  foldl (tally mode frame (frame_area frame)) (0, 0%Q) boxes.

(** The annotated frame it publishes. *)
Definition pass_annotated (mode : string) (frame : ndarray) (boxes : list Box)
    : ndarray :=
  foldl (annotate mode frame) frame boxes.

(** Everything [analyze_results] emits. *)
Definition pass_events (p : parameters) (mode : string) (frame : ndarray)
    (boxes : list Box) : list event :=
  (boxes ≫= box_events p mode frame)
  ++ [publish "yolo_detection_window" (pass_annotated mode frame boxes) "bgr8"].

Definition model_path_of (s : node) (mode : string) : string :=
  if String.eqb mode "tire" then model_tire_path s else model_coco_path s.

Definition class_of (mode : string) : Z :=
  if String.eqb mode "stop" then 11 else 0.

(** The boxes the detector returns for the frame, over all results. *)
Definition detected_boxes (s : node) (mode : string) (frame : ndarray) : list Box :=
  concat (yolo_predict E (model_path_of s mode) frame (class_of mode)).

(** The state after a pass over the cached [frame]. *)
Definition after_pass (s : node) (mode : string) (frame : ndarray) : node :=
  let im := fresh (dom (heap s)) in
  let h := <[im := frame]> (heap s) in
  let boxes := detected_boxes s mode frame in
  with_cam_image None
    (with_events
       (predict (model_path_of s mode) frame (class_of mode)
        :: pass_events (params s) mode frame boxes)
       (with_heap (<[fresh (dom h) := pass_annotated mode frame boxes]> h) s)).

(** The frame [image_callback] caches for a decoded image. *)
Definition preprocess (p : parameters) (img : ndarray) : ndarray :=
  let img := if 0 <? image_resize p
             then letterbox_resize E img (image_resize p, image_resize p)
             else img in
  if flip_image p then Cv2.flip (Cv2.flip img 0) 1 else img.

(** The square canvas of the letterbox step, before the resize. *)
Definition letterbox_canvas (img : ndarray) : ndarray :=
  let h := Np.shape0 img in
  let w := Np.shape1 img in
  let dif := Nat.max h w in
  Np.assign_region (Np.zeros dif dif (Np.shape2 img))
    (Nat.div (dif - h) 2) (Nat.div (dif - w) 2) img.

End Reference.

(** The node in the middle of a pass over [frame], after the boxes [done]:
    the cache is still full and the annotated frame is not yet published. *)
Definition during_pass (L : library) (s : node) (mode : string)
    (frame : ndarray) (done : list Box) : node :=
  let im := fresh (dom (heap s)) in
  let h := <[im := frame]> (heap s) in
  with_events
    (predict (model_path_of s mode) frame (class_of mode)
     :: (done ≫= box_events (calls L) (params s) mode frame))
    (with_heap (<[fresh (dom h) := pass_annotated (calls L) mode frame done]> h) s).

(** * Properties *)

(** ** How the monad runs *)

Lemma with_events_nil (s : node) : with_events [] s = s.
Proof. destruct s; unfold with_events; simpl. by rewrite app_nil_r. Qed.

Lemma with_events_app (e1 e2 : list event) (s : node) :
  with_events e2 (with_events e1 s) = with_events (e1 ++ e2) s.
Proof. unfold with_events; simpl. by rewrite app_assoc. Qed.

Lemma with_heap_same (s : node) : with_heap (heap s) s = s.
Proof. by destruct s. Qed.

Lemma bind_returns {A B} (m : M A) (f : A → M B) (s s' : node) (a : A) :
  m s = (Returns a, s') → (m ≫= f) s = f a s'.
Proof. intros H. unfold mbind, M_bind. by rewrite H. Qed.

Lemma bind_raises {A B} (m : M A) (f : A → M B) (s s' : node) (e : exn) :
  m s = (Raises e, s') → (m ≫= f) s = (Raises e, s').
Proof. intros H. unfold mbind, M_bind. by rewrite H. Qed.

Lemma emit_bind {B} (e : event) (f : unit → M B) (s : node) :
  (emit e ≫= f) s = f () (with_events [e] s).
Proof. reflexivity. Qed.

Lemma ret_bind {A B} (a : A) (f : A → M B) (s : node) : (mret a ≫= f) s = f a s.
Proof. reflexivity. Qed.

Lemma get_attr_bind {A B} (g : node → A) (f : A → M B) (s : node) :
  (get_attr g ≫= f) s = f (g s) s.
Proof. reflexivity. Qed.

Lemma get_param_bind {A B} (g : parameters → A) (f : A → M B) (s : node) :
  (get_param g ≫= f) s = f (g (params s)) s.
Proof. reflexivity. Qed.

Lemma load_run (r : ref) (a : ndarray) (s : node) :
  heap s !! r = Some a → load r s = (Returns a, s).
Proof. intros H. unfold load. by rewrite H. Qed.

Lemma load_dangling (r : ref) (s : node) :
  heap s !! r = None → load r s = (Raises DanglingReference, s).
Proof. intros H. unfold load. by rewrite H. Qed.

Lemma store_run (r : ref) (a b : ndarray) (s : node) :
  heap s !! r = Some a →
  store r b s = (Returns (), with_heap (<[r := b]> (heap s)) s).
Proof. intros H. unfold store. by rewrite H. Qed.

Lemma copy_run (r : ref) (a : ndarray) (s : node) :
  heap s !! r = Some a →
  copy r s = (Returns (fresh (dom (heap s))),
              with_heap (<[fresh (dom (heap s)) := a]> (heap s)) s).
Proof. intros H. unfold copy. by rewrite (bind_returns _ _ _ _ _ (load_run _ _ _ H)). Qed.

Lemma fresh_ref_unused (h : gmap ref ndarray) : h !! fresh (dom h) = None.
Proof. apply not_elem_of_dom, is_fresh. Qed.

Lemma draw_run (r : ref) (f : ndarray → ndarray) (a : ndarray) (s : node) :
  heap s !! r = Some a →
  draw r f s = (Returns (), with_heap (<[r := f a]> (heap s)) s).
Proof.
  intros H. unfold draw.
  rewrite (bind_returns _ _ _ _ _ (load_run _ _ _ H)).
  by apply store_run with a.
Qed.

Lemma for_in_app {A B} (l1 l2 : list A) (body : B → A → M B) (acc : B) (s : node) :
  for_in (l1 ++ l2) body acc s = (for_in l1 body acc ≫= for_in l2 body) s.
Proof.
  revert acc s. induction l1 as [|x l1 IH]; intros acc s; simpl; [done|].
  unfold mbind, M_bind in *.
  destruct (body acc x s) as [[acc'|e] s']; [apply IH | done].
Qed.

Lemma for_in_concat {A B} (ls : list (list A)) (body : B → A → M B) (acc : B)
    (s : node) :
  for_in ls (λ acc l, for_in l body acc) acc s = for_in (concat ls) body acc s.
Proof.
  revert acc s. induction ls as [|l ls IH]; intros acc s; simpl; [done|].
  rewrite for_in_app. unfold mbind, M_bind.
  destruct (for_in l body acc s) as [[acc'|e] s']; [apply IH | done].
Qed.

(** ** The methods agree with the reference functions *)

Ltac run_draw :=
  erewrite draw_run; [| simpl; first [eassumption | apply lookup_insert_eq]].

Section Runs.

Variable E : collaborators.

Lemma scan_readings_run (readings : list string) (s : node) :
  scan_readings readings s
  = (Returns (reads_stop readings), with_events (scan_log readings) s).
Proof.
  revert s. induction readings as [|text rest IH]; intros s; simpl.
  - by rewrite with_events_nil.
  - rewrite emit_bind.
    destruct (Py.contains "STOP" (Py.upper text)); [done|].
    by rewrite IH, with_events_app.
Qed.

Lemma stopsign_ocr_check_run (sign_image : ndarray) (s : node) :
  stopsign_ocr_check E sign_image s
  = (Returns (reads_stop (reader_readtext E (rgb_of E sign_image))),
     with_events (readtext (rgb_of E sign_image)
                  :: scan_log (reader_readtext E (rgb_of E sign_image))) s).
Proof.
  unfold stopsign_ocr_check, cvtColor. cbn [cvtColor_raises returning calls].
  by rewrite ret_bind, emit_bind, scan_readings_run, with_events_app.
Qed.

Lemma orange_vest_mask_run (person_image : ndarray) (s : node) :
  orange_vest_mask E person_image s
  = (Returns (),
     with_events
       [publish "vest_mask" (vest_mask E (params s) person_image) "mono8"] s).
Proof. reflexivity. Qed.

Lemma analyze_box_run (image output_image : ref) (mode : string)
    (image_size : Z) (acc : Z * Q) (box : Box) (frame o : ndarray) (s : node) :
  heap s !! image = Some frame →
  heap s !! output_image = Some o →
  image ≠ output_image →
  analyze_box E image output_image mode image_size acc box s
  = (Returns (tally E mode frame image_size acc box),
     with_events (box_events E (params s) mode frame box)
       (with_heap (<[output_image := annotate E mode frame o box]> (heap s)) s)).
Proof.
  intros Himg Hout Hne. destruct acc as [detected biggest].
  unfold analyze_box, tally, annotate, box_events, accepted, counted.
  destruct (String.eqb mode "stop") eqn:Hstop.
  - assert (String.eqb mode "person" = false) as ->.
    { apply String.eqb_eq in Hstop. by subst mode. }
    unfold mbind, M_bind, load. rewrite Himg, stopsign_ocr_check_run.
    destruct (reads_stop _); cbn [negb]; unfold mret, M_ret;
      do 2 run_draw; unfold with_events, with_heap; simpl;
      by rewrite insert_insert_eq.
  - destruct (String.eqb mode "person") eqn:Hperson;
      unfold mbind, M_bind, load, mret, M_ret; rewrite ?Himg, ?orange_vest_mask_run;
      do 2 run_draw; unfold with_events, with_heap; simpl;
      rewrite insert_insert_eq, ?app_nil_r; reflexivity.
Qed.

Lemma for_in_boxes_run (image output_image : ref) (mode : string)
    (image_size : Z) (boxes : list Box) (acc : Z * Q) (frame o : ndarray)
    (s : node) :
  heap s !! image = Some frame →
  heap s !! output_image = Some o →
  image ≠ output_image →
  for_in boxes (analyze_box E image output_image mode image_size) acc s
  = (Returns (foldl (tally E mode frame image_size) acc boxes),
     with_events (boxes ≫= box_events E (params s) mode frame)
       (with_heap
          (<[output_image := foldl (annotate E mode frame) o boxes]> (heap s)) s)).
Proof.
  intros Himg Hout Hne. revert acc o s Himg Hout.
  induction boxes as [|box boxes IH]; intros acc o s Himg Hout; simpl.
  - by rewrite insert_id, with_heap_same, with_events_nil.
  - rewrite (bind_returns _ _ _ _ _
               (analyze_box_run _ _ _ _ _ _ _ _ _ Himg Hout Hne)).
    erewrite IH; [| simpl; by rewrite lookup_insert_ne | simpl; apply lookup_insert_eq].
    unfold with_events, with_heap; simpl.
    by rewrite insert_insert_eq, app_assoc.
Qed.

Lemma analyze_results_run (results : list (list Box)) (image : ref)
    (mode : string) (frame : ndarray) (s : node) :
  heap s !! image = Some frame →
  analyze_results E results image mode s
  = (Returns (pass_result E mode frame (concat results)),
     with_events (pass_events E (params s) mode frame (concat results))
       (with_heap (<[fresh (dom (heap s)) :=
                       pass_annotated E mode frame (concat results)]> (heap s)) s)).
Proof.
  intros Himg. unfold analyze_results.
  rewrite (bind_returns _ _ _ _ _ (load_run _ _ _ Himg)).
  rewrite (bind_returns _ _ _ _ _ (copy_run _ _ _ Himg)).
  assert (image ≠ fresh (dom (heap s))) as Hne.
  { intros ->. by rewrite fresh_ref_unused in Himg. }
  unfold mbind at 1, M_bind at 1. rewrite for_in_concat.
  erewrite for_in_boxes_run;
    [| simpl; by rewrite lookup_insert_ne | simpl; apply lookup_insert_eq | done].
  erewrite bind_returns; [| apply load_run; simpl; apply lookup_insert_eq].
  rewrite emit_bind.
  unfold mret, M_ret, pass_events, pass_result, pass_annotated, frame_area.
  unfold with_events, with_heap; simpl.
  by rewrite insert_insert_eq, app_assoc.
Qed.

Lemma tables_lookup (s : node) (mode : string) :
  mode ∈ valid_targets →
  (<["stop" := model_coco_path s]> (<["tire" := model_tire_path s]>
     (<["person" := model_coco_path s]> (∅ : gmap string string)))) !! mode
    = Some (model_path_of s mode)
  ∧ (<["person" := 0]> (<["stop" := 11]> (<["tire" := 0]>
       (∅ : gmap string Z)))) !! mode = Some (class_of mode).
Proof.
  intros Hmode. unfold valid_targets in Hmode. set_unfold in Hmode.
  destruct Hmode as [->|[->|[->|[]]]]; by simplify_map_eq.
Qed.

Lemma detect_run (mode : string) (r : ref) (frame : ndarray) (s : node) :
  cam_image s = Some r →
  heap s !! r = Some frame →
  mode ∈ valid_targets →
  detect E mode s
  = (Returns (pass_result E mode frame (detected_boxes E s mode frame)),
     after_pass E s mode frame).
Proof.
  intros Hcam Hr Hmode. unfold detect.
  destruct (tables_lookup s mode Hmode) as [Hp Hc].
  rewrite !get_attr_bind. unfold subscript. rewrite Hp, ret_bind, get_attr_bind, Hcam.
  rewrite (bind_returns _ _ _ _ _ (copy_run _ _ _ Hr)).
  rewrite Hc, ret_bind.
  erewrite bind_returns; [| apply load_run; simpl; apply lookup_insert_eq].
  rewrite emit_bind.
  erewrite bind_returns; [| apply analyze_results_run; simpl; apply lookup_insert_eq].
  unfold pass_result, detected_boxes, after_pass.
  destruct (foldl _ _ _) as [count biggest].
  unfold mbind, M_bind, set_cam_image, mret, M_ret, with_cam_image, with_events,
    with_heap; simpl.
  by rewrite <- app_assoc.
Qed.

Lemma detect_dangling (mode : string) (r : ref) (s : node) :
  cam_image s = Some r →
  heap s !! r = None →
  mode ∈ valid_targets →
  detect E mode s = (Raises DanglingReference, s).
Proof.
  intros Hcam Hr Hmode. unfold detect.
  destruct (tables_lookup s mode Hmode) as [Hp Hc].
  rewrite !get_attr_bind. unfold subscript. rewrite Hp, ret_bind, get_attr_bind, Hcam.
  apply bind_raises. unfold copy. by apply bind_raises, load_dangling.
Qed.

Lemma target_check (target : string) :
  negb (bool_decide (target ∈ ["stop"; "tire"; "person"]%string))
  = negb (bool_decide (target ∈ valid_targets)).
Proof. reflexivity. Qed.

Lemma handle_no_frame (target : string) (s : node) :
  cam_image s = None →
  handle_detection_request E target s
  = (Returns {| count := -1; size := 0 |},
     with_events [log_warn "No image received yet"] s).
Proof.
  intros Hcam. unfold handle_detection_request.
  by rewrite get_attr_bind, Hcam.
Qed.

Lemma handle_unknown (target : string) (r : ref) (s : node) :
  cam_image s = Some r →
  target ∉ valid_targets →
  handle_detection_request E target s
  = (Returns {| count := 0; size := 0 |},
     with_events [log_warn ("Unknown detection target: " +:+ target)] s).
Proof.
  intros Hcam Htarget. unfold handle_detection_request.
  rewrite get_attr_bind, Hcam, target_check.
  by rewrite bool_decide_eq_false_2.
Qed.

Lemma handle_pass (target : string) (r : ref) (frame : ndarray) (s : node) :
  cam_image s = Some r →
  heap s !! r = Some frame →
  target ∈ valid_targets →
  handle_detection_request E target s
  = (Returns
       {| count := (pass_result E target frame (detected_boxes E s target frame)).1;
          size := (pass_result E target frame (detected_boxes E s target frame)).2 |},
     after_pass E s target frame).
Proof.
  intros Hcam Hr Htarget. unfold handle_detection_request.
  rewrite get_attr_bind, Hcam, target_check.
  rewrite bool_decide_eq_true_2 by done. cbn [negb].
  rewrite (bind_returns _ _ _ _ _ (detect_run _ _ _ _ Hcam Hr Htarget)).
  by destruct (pass_result _ _ _ _).
Qed.

Lemma handle_dangling (target : string) (r : ref) (s : node) :
  cam_image s = Some r →
  heap s !! r = None →
  target ∈ valid_targets →
  handle_detection_request E target s = (Raises DanglingReference, s).
Proof.
  intros Hcam Hr Htarget. unfold handle_detection_request.
  rewrite get_attr_bind, Hcam, target_check.
  rewrite bool_decide_eq_true_2 by done. cbn [negb].
  by apply bind_raises, detect_dangling with r.
Qed.

Lemma image_callback_run (msg : ROSImage) (img : ndarray) (s : node) :
  imgmsg_to_cv2 E msg "bgr8" = inr img →
  image_callback E msg s
  = (Returns (),
     with_cam_image (Some (fresh (dom (heap s))))
       (with_heap (<[fresh (dom (heap s)) := preprocess E (params s) img]> (heap s))
          s)).
Proof. intros H. unfold image_callback. cbn [calls returning]. by rewrite H. Qed.

Lemma image_callback_error (msg : ROSImage) (e : string) (s : node) :
  imgmsg_to_cv2 E msg "bgr8" = inl e →
  image_callback E msg s
  = (Returns (), with_events [log_error ("CVBridge error: " +:+ e)] s).
Proof. intros H. unfold image_callback. cbn [calls returning]. by rewrite H. Qed.

End Runs.

(** ** Strings and slices *)

Lemma prefix_app (p s : string) :
  String.prefix p s = true ↔ ∃ b, s = p +:+ b.
Proof.
  revert s. induction p as [|c p IH]; intros s.
  - split; [intros _; by exists s|]. intros _. by destruct s.
  - destruct s as [|d s]; simpl.
    + split; [done|]. by intros [b Hb].
    + destruct (ascii_dec c d) as [->|Hne].
      * rewrite IH. split; intros [b Hb]; exists b; [by rewrite Hb|].
        by injection Hb.
      * split; [done|]. intros [b Hb]. injection Hb as -> _. done.
Qed.

Lemma contains_app (needle hay : string) :
  Py.contains needle hay = true ↔ ∃ a b, hay = a +:+ needle +:+ b.
Proof.
  split.
  - induction hay as [|c hay IH]; cbn [Py.contains]; rewrite orb_true_iff.
    + intros [H|H]; [|done]. apply prefix_app in H as [b Hb]. by exists EmptyString, b.
    + intros [H|H].
      * apply prefix_app in H as [b Hb]. by exists EmptyString, b.
      * destruct (IH H) as (a & b & ->). by exists (String c a), b.
  - intros (a & b & ->). induction a as [|c a IH].
    + change (EmptyString +:+ needle +:+ b) with (needle +:+ b).
      destruct (needle +:+ b) eqn:Heq; cbn [Py.contains]; rewrite orb_true_iff;
        left; apply prefix_app; exists b; by rewrite Heq.
    + change (String c a +:+ needle +:+ b) with (String c (a +:+ needle +:+ b)).
      cbn [Py.contains]. rewrite orb_true_iff. by right.
Qed.

Lemma upper_app (a b : string) : Py.upper (a +:+ b) = Py.upper a +:+ Py.upper b.
Proof. induction a as [|c a IH]; simpl; [done|]. by rewrite IH. Qed.

Lemma upper_app_inv (s x y : string) :
  Py.upper s = x +:+ y →
  ∃ s1 s2, s = s1 +:+ s2 ∧ Py.upper s1 = x ∧ Py.upper s2 = y.
Proof.
  revert s. induction x as [|c x IH]; intros s Hs.
  - by exists EmptyString, s.
  - destruct s as [|d s]; simpl in Hs; [done|]. injection Hs as Hc Hs.
    destruct (IH s Hs) as (s1 & s2 & -> & H1 & H2).
    exists (String d s1), s2. simpl. by rewrite Hc, H1.
Qed.

Lemma spells_stop_iff (text : string) :
  spells_stop text = true
  ↔ ∃ a m b, text = a +:+ m +:+ b ∧ Py.upper m = "STOP"%string.
Proof.
  unfold spells_stop. rewrite contains_app. split.
  - intros (a' & b' & Hup).
    destruct (upper_app_inv _ _ _ Hup) as (a & rest & -> & _ & Hrest).
    destruct (upper_app_inv _ _ _ Hrest) as (m & b & -> & Hm & _).
    by exists a, m, b.
  - intros (a & m & b & -> & Hm).
    exists (Py.upper a), (Py.upper b). by rewrite !upper_app, Hm.
Qed.

Lemma reads_stop_iff (readings : list string) :
  reads_stop readings = true ↔ ∃ t, t ∈ readings ∧ spells_stop t = true.
Proof.
  unfold spells_stop. induction readings as [|t readings IH]; simpl.
  - split; [done|]. intros (t & Ht & _). by apply elem_of_nil in Ht.
  - rewrite orb_true_iff, IH. split.
    + intros [H|(t' & Ht' & H)]; [exists t; split; [by left|done]|].
      exists t'. split; [by right|done].
    + intros (t' & Ht' & H). apply elem_of_cons in Ht' as [->|Ht']; [by left|].
      right. by exists t'.
Qed.

Lemma slice_same {A} (l : list A) (a : Z) : Py.slice l a a = [].
Proof. unfold Py.slice. by rewrite Z.sub_diag. Qed.

Lemma slice_bound_range (n i : Z) : 0 ≤ n → 0 ≤ Py.slice_bound n i ≤ n.
Proof. intros Hn. unfold Py.slice_bound. destruct (i <? 0) eqn:Hi; lia. Qed.

Lemma slice_beyond {A} (l : list A) (a b : Z) :
  Z.of_nat (length l) ≤ a → Py.slice l a b = [].
Proof.
  intros Ha. unfold Py.slice.
  pose proof (slice_bound_range (Z.of_nat (length l)) b ltac:(lia)) as Hb.
  assert (Py.slice_bound (Z.of_nat (length l)) a = Z.of_nat (length l)) as ->.
  { unfold Py.slice_bound. destruct (a <? 0) eqn:Hneg; lia. }
  replace (Z.to_nat (_ - _)) with 0%nat by lia. done.
Qed.

Lemma slice_inside {A} (l : list A) (a b : nat) :
  (a ≤ b ≤ length l)%nat →
  Py.slice l (Z.of_nat a) (Z.of_nat b) = take (b - a) (drop a l).
Proof.
  intros Hab. unfold Py.slice, Py.slice_bound.
  replace (Z.of_nat a <? 0) with false by (symmetry; apply Z.ltb_ge; lia).
  replace (Z.of_nat b <? 0) with false by (symmetry; apply Z.ltb_ge; lia).
  f_equal; [lia|]. f_equal. lia.
Qed.

(** ** Runs with a library that may raise *)

Lemma cvtColor_returns (L : library) (src : ndarray) (code : Cv2.color_code)
    (s : node) :
  cvtColor_raises L src code = None →
  cvtColor L src code s = (Returns (cv2_cvtColor (calls L) src code), s).
Proof. intros H. unfold cvtColor. by rewrite H. Qed.

Lemma cvtColor_raise (L : library) (src : ndarray) (code : Cv2.color_code)
    (text : string) (s : node) :
  cvtColor_raises L src code = Some text →
  cvtColor L src code s = (Raises (Cv2Error text), s).
Proof. intros H. unfold cvtColor. by rewrite H. Qed.

Lemma stopsign_ocr_check_lib (L : library) (sign_image : ndarray) (s : node) :
  stopsign_ocr_check L sign_image s
  = match cvtColor_raises L sign_image Cv2.COLOR_BGR2RGB with
    | Some text => (Raises (Cv2Error text), s)
    | None =>
        (Returns (reads_stop (reader_readtext (calls L) (rgb_of (calls L) sign_image))),
         with_events
           (readtext (rgb_of (calls L) sign_image)
            :: scan_log (reader_readtext (calls L) (rgb_of (calls L) sign_image))) s)
    end.
Proof.
  unfold stopsign_ocr_check.
  destruct (cvtColor_raises L sign_image Cv2.COLOR_BGR2RGB) as [text|] eqn:Hc.
  - by rewrite (bind_raises _ _ _ _ _ (cvtColor_raise L _ _ text s Hc)).
  - rewrite (bind_returns _ _ _ _ _ (cvtColor_returns L _ _ s Hc)).
    by rewrite emit_bind, scan_readings_run, with_events_app.
Qed.

Lemma orange_vest_mask_lib (L : library) (person_image : ndarray) (s : node) :
  orange_vest_mask L person_image s
  = match cvtColor_raises L person_image Cv2.COLOR_BGR2HSV with
    | Some text => (Raises (Cv2Error text), s)
    | None =>
        match inRange_raises L
                (cv2_cvtColor (calls L) person_image Cv2.COLOR_BGR2HSV)
                (tcol_lower (params s)) (tcol_upper (params s)) with
        | Some text => (Raises (Cv2Error text), s)
        | None =>
            (Returns (),
             with_events
               [publish "vest_mask" (vest_mask (calls L) (params s) person_image)
                  "mono8"] s)
        end
    end.
Proof.
  unfold orange_vest_mask. rewrite !get_param_bind.
  destruct (cvtColor_raises L person_image Cv2.COLOR_BGR2HSV) as [text|] eqn:Hc.
  - by rewrite (bind_raises _ _ _ _ _ (cvtColor_raise L _ _ text s Hc)).
  - rewrite (bind_returns _ _ _ _ _ (cvtColor_returns L _ _ s Hc)).
    unfold inRange, tcol_lower, tcol_upper.
    by destruct (inRange_raises L _ _ _).
Qed.

Lemma analyze_box_lib (L : library) (image output_image : ref) (mode : string)
    (image_size : Z) (acc : Z * Q) (box : Box) (frame o : ndarray) (s : node) :
  heap s !! image = Some frame →
  heap s !! output_image = Some o →
  image ≠ output_image →
  analyze_box L image output_image mode image_size acc box s
  = match box_raises L (params s) mode frame box with
    | Some text => (Raises (Cv2Error text), s)
    | None =>
        (Returns (tally (calls L) mode frame image_size acc box),
         with_events (box_events (calls L) (params s) mode frame box)
           (with_heap
              (<[output_image := annotate (calls L) mode frame o box]> (heap s)) s))
    end.
Proof.
  intros Himg Hout Hne. destruct acc as [detected biggest].
  unfold analyze_box, box_raises, tally, annotate, box_events, accepted, counted.
  destruct (String.eqb mode "stop") eqn:Hstop.
  - assert (String.eqb mode "person" = false) as ->.
    { apply String.eqb_eq in Hstop. by subst mode. }
    unfold mbind, M_bind, load. rewrite Himg, stopsign_ocr_check_lib.
    destruct (cvtColor_raises L _ _); [done|].
    destruct (reads_stop _); cbn [negb]; unfold mret, M_ret;
      do 2 run_draw; unfold with_events, with_heap; simpl;
      by rewrite insert_insert_eq.
  - destruct (String.eqb mode "person") eqn:Hperson.
    + unfold mbind, M_bind, load, mret, M_ret. rewrite Himg, orange_vest_mask_lib.
      destruct (cvtColor_raises L _ _); [done|].
      destruct (inRange_raises L _ _ _); [done|].
      do 2 run_draw; unfold with_events, with_heap; simpl.
      by rewrite insert_insert_eq.
    + unfold mbind, M_bind, load, mret, M_ret.
      do 2 run_draw; unfold with_events, with_heap; simpl.
      rewrite insert_insert_eq, ?app_nil_r; reflexivity.
Qed.

Lemma for_in_boxes_returns (L : library) (image output_image : ref)
    (mode : string) (image_size : Z) (boxes : list Box) (acc : Z * Q)
    (frame o : ndarray) (s : node) :
  heap s !! image = Some frame →
  heap s !! output_image = Some o →
  image ≠ output_image →
  Forall (λ b, box_raises L (params s) mode frame b = None) boxes →
  for_in boxes (analyze_box L image output_image mode image_size) acc s
  = (Returns (foldl (tally (calls L) mode frame image_size) acc boxes),
     with_events (boxes ≫= box_events (calls L) (params s) mode frame)
       (with_heap
          (<[output_image := foldl (annotate (calls L) mode frame) o boxes]> (heap s))
          s)).
Proof.
  intros Himg Hout Hne Hall. revert acc o s Himg Hout Hall.
  induction boxes as [|box boxes IH]; intros acc o s Himg Hout Hall; simpl.
  - by rewrite insert_id, with_heap_same, with_events_nil.
  - apply Forall_cons in Hall as [Hbox Hall].
    erewrite bind_returns;
      [| rewrite (analyze_box_lib L _ _ _ _ _ _ _ _ _ Himg Hout Hne), Hbox;
         reflexivity].
    erewrite IH;
      [| simpl; by rewrite lookup_insert_ne | simpl; apply lookup_insert_eq
       | exact Hall].
    unfold with_events, with_heap; simpl.
    by rewrite insert_insert_eq, app_assoc.
Qed.

Lemma for_in_boxes_raises (L : library) (image output_image : ref)
    (mode : string) (image_size : Z) (pre post : list Box) (b : Box)
    (text : string) (acc : Z * Q) (frame o : ndarray) (s : node) :
  heap s !! image = Some frame →
  heap s !! output_image = Some o →
  image ≠ output_image →
  Forall (λ b, box_raises L (params s) mode frame b = None) pre →
  box_raises L (params s) mode frame b = Some text →
  for_in (pre ++ b :: post) (analyze_box L image output_image mode image_size) acc s
  = (Raises (Cv2Error text),
     with_events (pre ≫= box_events (calls L) (params s) mode frame)
       (with_heap
          (<[output_image := foldl (annotate (calls L) mode frame) o pre]> (heap s))
          s)).
Proof.
  intros Himg Hout Hne Hpre Hb. rewrite for_in_app.
  rewrite (bind_returns _ _ _ _ _
             (for_in_boxes_returns L _ _ _ _ _ _ _ _ _ Himg Hout Hne Hpre)).
  cbn [for_in]. apply bind_raises.
  erewrite analyze_box_lib;
    [| simpl; by rewrite lookup_insert_ne | simpl; apply lookup_insert_eq | done].
  cbn [params with_events with_heap]. by rewrite Hb.
Qed.


Lemma handle_returns (L : library) (target : string) (r : ref)
    (frame : ndarray) (s : node) :
  cam_image s = Some r →
  heap s !! r = Some frame →
  target ∈ valid_targets →
  Forall (λ b, box_raises L (params s) target frame b = None)
    (detected_boxes (calls L) s target frame) →
  handle_detection_request L target s
  = (Returns
       {| count := (pass_result (calls L) target frame
                      (detected_boxes (calls L) s target frame)).1;
          size := (pass_result (calls L) target frame
                     (detected_boxes (calls L) s target frame)).2 |},
     after_pass (calls L) s target frame).
Proof.
  intros Hcam Hr Htarget Hall. unfold handle_detection_request.
  rewrite get_attr_bind, Hcam, target_check.
  rewrite bool_decide_eq_true_2 by done. cbn [negb].
  assert (detect L target s
          = (Returns (pass_result (calls L) target frame
                        (detected_boxes (calls L) s target frame)),
             after_pass (calls L) s target frame)) as Hdetect.
  { unfold detect. destruct (tables_lookup s target Htarget) as [Hp Hc].
    rewrite !get_attr_bind. unfold subscript.
    rewrite Hp, ret_bind, get_attr_bind, Hcam.
    rewrite (bind_returns _ _ _ _ _ (copy_run _ _ _ Hr)).
    rewrite Hc, ret_bind.
    erewrite bind_returns; [| apply load_run; simpl; apply lookup_insert_eq].
    rewrite emit_bind.
    set (s1 := with_events _ (with_heap _ s)).
    assert (heap s1 !! fresh (dom (heap s)) = Some frame) as Him
      by (subst s1; simpl; apply lookup_insert_eq).
    assert (fresh (dom (heap s)) ≠ fresh (dom (heap s1))) as Hne.
    { intros Heq. rewrite Heq in Him. by rewrite fresh_ref_unused in Him. }
    erewrite bind_returns.
    2:{ unfold analyze_results.
        rewrite (bind_returns _ _ _ _ _ (load_run _ _ _ Him)).
        rewrite (bind_returns _ _ _ _ _ (copy_run _ _ _ Him)).
        unfold mbind at 1, M_bind at 1. rewrite for_in_concat.
        erewrite for_in_boxes_returns;
          [| simpl; by rewrite lookup_insert_ne | simpl; apply lookup_insert_eq
           | done | exact Hall].
        erewrite bind_returns; [| apply load_run; simpl; apply lookup_insert_eq].
        rewrite emit_bind. unfold mret, M_ret. reflexivity. }
    unfold pass_result, detected_boxes, after_pass, pass_events, pass_annotated,
      frame_area.
    destruct (foldl _ _ _) as [count biggest].
    unfold mbind, M_bind, set_cam_image, mret, M_ret, with_cam_image, with_events,
      with_heap; simpl.
    by rewrite insert_insert_eq, <- !app_assoc. }
  rewrite (bind_returns _ _ _ _ _ Hdetect).
  by destruct (pass_result _ _ _ _).
Qed.

Lemma handle_raises (L : library) (target : string) (r : ref)
    (frame : ndarray) (s : node) (pre post : list Box) (b : Box) (text : string) :
  cam_image s = Some r →
  heap s !! r = Some frame →
  target ∈ valid_targets →
  detected_boxes (calls L) s target frame = pre ++ b :: post →
  Forall (λ b, box_raises L (params s) target frame b = None) pre →
  box_raises L (params s) target frame b = Some text →
  handle_detection_request L target s
  = (Raises (Cv2Error text), during_pass L s target frame pre).
Proof.
  intros Hcam Hr Htarget Hboxes Hpre Hb. unfold handle_detection_request.
  rewrite get_attr_bind, Hcam, target_check.
  rewrite bool_decide_eq_true_2 by done. cbn [negb].
  apply bind_raises.
  unfold detect. destruct (tables_lookup s target Htarget) as [Hp Hc].
  rewrite !get_attr_bind. unfold subscript.
  rewrite Hp, ret_bind, get_attr_bind, Hcam.
  rewrite (bind_returns _ _ _ _ _ (copy_run _ _ _ Hr)).
  rewrite Hc, ret_bind.
  erewrite bind_returns; [| apply load_run; simpl; apply lookup_insert_eq].
  rewrite emit_bind.
  set (s1 := with_events _ (with_heap _ s)).
  assert (heap s1 !! fresh (dom (heap s)) = Some frame) as Him
    by (subst s1; simpl; apply lookup_insert_eq).
  assert (fresh (dom (heap s)) ≠ fresh (dom (heap s1))) as Hne.
  { intros Heq. rewrite Heq in Him. by rewrite fresh_ref_unused in Him. }
  apply bind_raises. unfold analyze_results.
  rewrite (bind_returns _ _ _ _ _ (load_run _ _ _ Him)).
  rewrite (bind_returns _ _ _ _ _ (copy_run _ _ _ Him)).
  unfold mbind at 1, M_bind at 1. rewrite for_in_concat.
  unfold detected_boxes in Hboxes. rewrite Hboxes.
  erewrite for_in_boxes_raises;
    [| simpl; by rewrite lookup_insert_ne | simpl; apply lookup_insert_eq
     | done | exact Hpre | exact Hb].
  unfold during_pass, pass_annotated, with_events, with_heap; simpl.
  by rewrite insert_insert_eq, <- !app_assoc.
Qed.





(** The region of a box that starts at or beyond the last row or column of
    the frame has no pixel. *)
Lemma box_region_beyond (frame : ndarray) (h w c : nat) (box : Box) :
  Np.rect h w c frame →
  Z.of_nat h ≤ Py.int (xyxy box).1.1.2 ∨ Z.of_nat w ≤ Py.int (xyxy box).1.1.1 →
  ∀ i j, Np.pixel (box_region frame box) i j = None.
Proof.
  intros [Hlen Hrows] Hbox i j. unfold box_region.
  destruct (xyxy box) as [[[x1 y1] x2] y2]. simpl in Hbox.
  unfold Np.crop, Np.pixel. rewrite list_lookup_fmap.
  destruct Hbox as [Hy|Hx].
  - by rewrite slice_beyond by lia.
  - destruct (Py.slice frame _ _ !! i) as [row|] eqn:Hrow; simpl; [|done].
    unfold Py.slice in Hrow. apply lookup_take_Some in Hrow as [Hrow _].
    rewrite lookup_drop in Hrow.
    destruct (Forall_lookup_1 _ _ _ _ Hrows Hrow) as [Hw _].
    by rewrite slice_beyond by lia.
Qed.

Lemma opencv_raises_on_empty (results : list (list Box))
    (ocr : ndarray → list string) :
  raises_on_empty (Demo.opencv results ocr).
Proof.
  intros src code Hnone. simpl.
  assert (Demo.no_pixel src = true) as ->; [|by eexists].
  induction src as [|row src IH]; [done|]. simpl.
  destruct row as [|px row].
  - apply IH. intros i j. apply (Hnone (S i) j).
  - by specialize (Hnone 0%nat 0%nat).
Qed.

(** A decidable closed proposition, by evaluation. *)
Ltac by_compute := apply (bool_decide_unpack _); vm_compute; exact I.

(** ** The stop-sign validator *)










(** The call [text.replace("0", "O")] has no effect on the test, its result
    is dropped: the reading ST0P is rejected, where the validator of the
    specification accepts it. *)
Lemma stopsign_ocr_check_ST0P :
  (stopsign_ocr_check (Demo.scripted [] (λ _, ["ST0P"%string])) [] (init declared)).1
  = Returns false
  ∧ validate_spec ["ST0P"%string] = true.
Proof. split; reflexivity. Qed.

(** ** The request handler *)

(** C2 fails on the code when no frame is cached: the handler tests the cache
    before the target, so an unknown target then gets the count -1. *)
Lemma unknown_target_without_frame :
  ("bike"%string ∉ valid_targets)
  ∧ cam_image (init declared) = None
  ∧ (handle_detection_request (Demo.scripted [] (λ _, [])) "bike" (init declared)).1
    = Returns {| count := -1; size := 0 |}
  ∧ (handle_detection_request (Demo.scripted [] (λ _, [])) "bike" (init declared)).1
    ≠ Returns {| count := 0; size := 0 |}.
Proof.
  split; [by_compute|].
  split; [reflexivity|]. split; [by vm_compute|]. by vm_compute.
Qed.

Lemma pass_result_count_nonneg (E : collaborators) (mode : string)
    (frame : ndarray) (boxes : list Box) :
  0 ≤ (pass_result E mode frame boxes).1.
Proof.
  unfold pass_result. generalize (frame_area frame). intros size.
  assert (∀ acc, 0 ≤ acc.1 → 0 ≤ (foldl (tally E mode frame size) acc boxes).1) as H.
  { induction boxes as [|b boxes IH]; intros acc Hacc; simpl; [done|].
    apply IH. unfold tally, counted. destruct (accepted _ _ _ _); simpl; lia. }
  by apply H.
Qed.

(** C2 as amended.  For a target outside stop, tire, person: when a frame is
    cached the handler returns (0, 0.0), only logs a warning, and leaves the
    cache and the store as they were, so that a request with a valid target
    that follows runs its pass on that frame and returns what it would have
    returned without the unknown request, a count that is not negative; when
    no frame is cached the handler returns (-1, 0.0). *)
Theorem unknown_target_keeps_frame (E : collaborators) (target : string)
    (s : node) :
  target ∉ valid_targets →
  (∀ r, cam_image s = Some r →
     handle_detection_request E target s
     = (Returns {| count := 0; size := 0 |},
        with_events [log_warn ("Unknown detection target: " +:+ target)] s)
     ∧ cam_image (handle_detection_request E target s).2 = Some r
     ∧ heap (handle_detection_request E target s).2 = heap s
     ∧ ∀ frame mode, heap s !! r = Some frame → mode ∈ valid_targets →
         ∃ resp,
           (handle_detection_request E mode
              (handle_detection_request E target s).2).1 = Returns resp
           ∧ (handle_detection_request E mode s).1 = Returns resp
           ∧ 0 ≤ count resp
           ∧ cam_image (handle_detection_request E mode
                          (handle_detection_request E target s).2).2 = None)
  ∧ (cam_image s = None →
     handle_detection_request E target s
     = (Returns {| count := -1; size := 0 |},
        with_events [log_warn "No image received yet"] s)).
Proof.
  intros Htarget. split; [|apply handle_no_frame].
  intros r Hcam. rewrite (handle_unknown E target r s Hcam Htarget).
  repeat split; [done|]. intros frame mode Hr Hmode. simpl.
  rewrite (handle_pass E mode r frame s Hcam Hr Hmode).
  erewrite handle_pass; [| exact Hcam | exact Hr | exact Hmode].
  eexists. repeat split. simpl. apply pass_result_count_nonneg.
Qed.

Lemma unknown_target_keeps_frame_witness :
  (handle_detection_request (Demo.scripted [[Demo.box 1 1 3 3]] (λ _, [])) "bike"
     (Demo.holding (Demo.plain 4 4 [1; 2; 3]))).1
  = Returns {| count := 0; size := 0 |}.
Proof.
  pose proof (unknown_target_keeps_frame
                (Demo.scripted [[Demo.box 1 1 3 3]] (λ _, [])) "bike"
                (Demo.holding (Demo.plain 4 4 [1; 2; 3]))) as H.
  destruct H as [H _].
  - by_compute.
  - destruct (H 0%nat eq_refl) as [-> _]. reflexivity.
Defined.

(** C3.  A request with a valid target made while no frame is cached returns
    (-1, 0.0); all it does is log a warning: the detector is not run, nothing
    is published, the cache stays empty and the store is untouched.  For the
    target tire on an empty cache the reply is (-1, 0.0). *)
Theorem request_without_frame (E : collaborators) (target : string) (s : node) :
  target ∈ valid_targets →
  cam_image s = None →
  handle_detection_request E target s
  = (Returns {| count := -1; size := 0 |},
     with_events [log_warn "No image received yet"] s)
  ∧ passes (trace (handle_detection_request E target s).2) = passes (trace s)
  ∧ cam_image (handle_detection_request E target s).2 = None
  ∧ heap (handle_detection_request E target s).2 = heap s
  ∧ (handle_detection_request E "tire" s).1 = Returns {| count := -1; size := 0 |}.
Proof.
  intros _ Hcam. rewrite !handle_no_frame by done. simpl.
  repeat split; [|done].
  unfold passes. by rewrite filter_app, length_app, Nat.add_0_r.
Qed.

Lemma request_without_frame_witness :
  (handle_detection_request (Demo.scripted [[Demo.box 1 1 3 3]] (λ _, [])) "tire"
     (init declared)).1
  = Returns {| count := -1; size := 0 |}.
Proof.
  destruct (request_without_frame (Demo.scripted [[Demo.box 1 1 3 3]] (λ _, []))
              "tire" (init declared)) as [-> _].
  - by_compute.
  - reflexivity.
  - reflexivity.
Defined.

(** ** The frame cache *)

Lemma passes_app (tr1 tr2 : list event) :
  passes (tr1 ++ tr2) = (passes tr1 + passes tr2)%nat.
Proof. unfold passes. by rewrite filter_app, length_app. Qed.

Lemma passes_snoc_other (tr : list event) (e : event) :
  is_predict e = false → passes (tr ++ [e]) = passes tr.
Proof.
  intros H. rewrite passes_app. unfold passes at 2.
  rewrite filter_cons_False by (rewrite H; simpl; tauto). simpl. lia.
Qed.

Lemma filter_predict_scan_log (readings : list string) :
  filter is_predict (scan_log readings) = [].
Proof.
  induction readings as [|text readings IH]; simpl; [done|].
  rewrite filter_cons_False by (simpl; tauto).
  by destruct (Py.contains _ _).
Qed.

Lemma filter_predict_pass_events (E : collaborators) (p : parameters)
    (mode : string) (frame : ndarray) (boxes : list Box) :
  filter is_predict (pass_events E p mode frame boxes) = [].
Proof.
  unfold pass_events. rewrite filter_app.
  rewrite (filter_cons_False _ _ []) by (simpl; tauto).
  rewrite app_nil_r.
  induction boxes as [|box boxes IH]; [done|].
  rewrite bind_cons, filter_app, IH, app_nil_r. unfold box_events.
  destruct (String.eqb mode "stop").
  - rewrite filter_cons_False by (simpl; tauto). apply filter_predict_scan_log.
  - destruct (String.eqb mode "person"); [|done].
    by rewrite filter_cons_False by (simpl; tauto).
Qed.

Lemma after_pass_predicts (E : collaborators) (s : node) (mode : string)
    (frame : ndarray) :
  filter is_predict (trace (after_pass E s mode frame))
  = filter is_predict (trace s)
    ++ [predict (model_path_of s mode) frame (class_of mode)].
Proof.
  unfold after_pass; simpl. rewrite filter_app. f_equal.
  rewrite filter_cons_True by (simpl; tauto).
  by rewrite filter_predict_pass_events.
Qed.

Lemma after_pass_passes (E : collaborators) (s : node) (mode : string)
    (frame : ndarray) :
  passes (trace (after_pass E s mode frame)) = S (passes (trace s)).
Proof.
  unfold passes at 1. rewrite after_pass_predicts, length_app. simpl.
  unfold passes. lia.
Qed.

(** A request never raises the sum of detector runs and cached frames. *)
Lemma request_potential (E : collaborators) (target : string) (s : node) :
  (passes (trace (handle_detection_request E target s).2)
   + cached (handle_detection_request E target s).2
   ≤ passes (trace s) + cached s)%nat.
Proof.
  destruct (cam_image s) as [r|] eqn:Hcam.
  - destruct (decide (target ∈ valid_targets)) as [Hin|Hout].
    + destruct (heap s !! r) as [frame|] eqn:Hr.
      * rewrite (handle_pass E target r frame s Hcam Hr Hin).
        cbn [snd]. rewrite after_pass_passes.
        unfold cached. rewrite Hcam.
        unfold after_pass, with_cam_image. cbn [cam_image]. lia.
      * by rewrite (handle_dangling E target r s Hcam Hr Hin).
    + rewrite (handle_unknown E target r s Hcam Hout).
      cbn [snd]. unfold cached. cbn [with_events trace cam_image].
      rewrite passes_snoc_other by done. lia.
  - rewrite (handle_no_frame E target s Hcam).
    cbn [snd]. unfold cached. cbn [with_events trace cam_image].
    rewrite passes_snoc_other by done. lia.
Qed.

(** A frame arrival runs no detector and fills at most the one slot. *)
Lemma image_potential (E : collaborators) (msg : ROSImage) (s : node) :
  passes (trace (image_callback E msg s).2) = passes (trace s)
  ∧ (cached (image_callback E msg s).2 ≤ 1)%nat.
Proof.
  destruct (imgmsg_to_cv2 E msg "bgr8") as [e|img] eqn:Hmsg.
  - rewrite (image_callback_error E msg e s Hmsg). cbn [snd].
    unfold cached. cbn [with_events trace cam_image].
    rewrite passes_snoc_other by done. split; [lia|]. destruct (cam_image s); lia.
  - rewrite (image_callback_run E msg img s Hmsg). cbn [snd]. unfold cached. simpl.
    split; [done|lia].
Qed.

Lemma dispatch_state (E : collaborators) (cb : callback) (s : node) :
  (dispatch E cb s).2
  = match cb with
    | on_image msg => (image_callback E msg s).2
    | on_request target => (handle_detection_request E target s).2
    end.
Proof.
  destruct cb as [msg|target]; unfold dispatch, mbind, M_bind.
  - by destruct (image_callback E msg s) as [[[]|e] s'].
  - by destruct (handle_detection_request E target s) as [[r|e] s'].
Qed.

Lemma dispatch_potential (E : collaborators) (cb : callback) (s : node) :
  (passes (trace (dispatch E cb s).2) + cached (dispatch E cb s).2
   ≤ passes (trace s) + cached s + (if is_image cb then 1 else 0))%nat.
Proof.
  rewrite dispatch_state. destruct cb as [msg|target]; simpl.
  - destruct (image_potential E msg s) as [-> Hc]. lia.
  - pose proof (request_potential E target s). lia.
Qed.

Lemma spin_potential (E : collaborators) (cbs : list callback) (s : node) :
  (passes (trace (spin E cbs s).2) + cached (spin E cbs s).2
   ≤ passes (trace s) + cached s + length (filter is_image cbs))%nat.
Proof.
  revert s. induction cbs as [|cb cbs IH]; intros s; [simpl; lia|].
  pose proof (dispatch_potential E cb s) as Hcb.
  assert (length (filter is_image (cb :: cbs))
          = ((if is_image cb then 1 else 0) + length (filter is_image cbs))%nat)
    as ->.
  { destruct (is_image cb) eqn:Hi.
    - rewrite filter_cons_True by (by rewrite Hi). reflexivity.
    - rewrite filter_cons_False by (rewrite Hi; simpl; tauto). reflexivity. }
  cbn [spin]. destruct (dispatch E cb s) as [[r|e] s']; cbn [snd] in *.
  - specialize (IH s'). destruct (spin E cbs s') as [rs s'']. cbn [snd] in *. lia.
  - lia.
Qed.

Lemma requests_hold_no_image (targets : list string) :
  filter is_image (on_request <$> targets) = [].
Proof.
  induction targets as [|t targets IH]; [done|].
  rewrite fmap_cons, filter_cons_False by (simpl; tauto). exact IH.
Qed.

(** C4.  The cache is consumed once.  A request with a valid target that
    finds a frame runs the detector once, on that frame, and leaves the
    cache empty, so that the next request, whatever its target, is answered
    (-1, 0.0) without a detector run.  Hence over any sequence of requests
    with no frame arriving in between the detector runs at most once, and
    only if a frame was cached; over any sequence of callbacks it runs at
    most once per frame arrival (plus one for a frame cached at the start). *)
Theorem frame_consumed_once (E : collaborators) :
  (∀ (s : node) (r : ref) (frame : ndarray) (mode : string),
     cam_image s = Some r → heap s !! r = Some frame → mode ∈ valid_targets →
     cam_image (handle_detection_request E mode s).2 = None
     ∧ filter is_predict (trace (handle_detection_request E mode s).2)
       = filter is_predict (trace s)
         ++ [predict (model_path_of s mode) frame (class_of mode)]
     ∧ ∀ target,
         (handle_detection_request E target
            (handle_detection_request E mode s).2).1
         = Returns {| count := -1; size := 0 |}
         ∧ passes (trace (handle_detection_request E target
                            (handle_detection_request E mode s).2).2)
           = passes (trace (handle_detection_request E mode s).2))
  ∧ (∀ (targets : list string) (s : node),
       (passes (trace (spin E (on_request <$> targets) s).2)
        ≤ passes (trace s) + cached s)%nat)
  ∧ (∀ (cbs : list callback) (s : node),
       (passes (trace (spin E cbs s).2)
        ≤ passes (trace s) + cached s + length (filter is_image cbs))%nat).
Proof.
  split; [|split].
  - intros s r frame mode Hcam Hr Hmode.
    rewrite (handle_pass E mode r frame s Hcam Hr Hmode). cbn [snd].
    split; [done|]. split; [apply after_pass_predicts|].
    intros target. rewrite handle_no_frame by done. cbn [fst snd].
    split; [done|]. cbn [trace with_events]. by rewrite passes_snoc_other.
  - intros targets s.
    pose proof (spin_potential E (on_request <$> targets) s) as H.
    rewrite requests_hold_no_image in H. simpl in H. lia.
  - intros cbs s. pose proof (spin_potential E cbs s). lia.
Qed.

Lemma frame_consumed_once_witness :
  cam_image
    (handle_detection_request (Demo.scripted [[Demo.box 1 1 3 3]] (λ _, [])) "tire"
       (Demo.holding (Demo.plain 4 4 [1; 2; 3]))).2
  = None.
Proof.
  destruct (frame_consumed_once (Demo.scripted [[Demo.box 1 1 3 3]] (λ _, [])))
    as [H _].
  destruct (H (Demo.holding (Demo.plain 4 4 [1; 2; 3])) 0%nat
              (Demo.plain 4 4 [1; 2; 3]) "tire"%string) as [Hcam _].
  - reflexivity.
  - reflexivity.
  - by_compute.
  - exact Hcam.
Defined.

(** ** The preprocessor: letterbox and flip *)

Section Arrays.

Local Open Scope nat_scope.

Lemma half_bounds (n : nat) : 2 * (n / 2) ≤ n ∧ n ≤ 2 * (n / 2) + 1.
Proof.
  pose proof (Nat.div_mod_eq n 2). pose proof (Nat.mod_upper_bound n 2). lia.
Qed.

Lemma letterbox_offsets (h w : nat) :
  let side := Nat.max h w in
  let y := (side - h) / 2 in
  let x := (side - w) / 2 in
  y + h ≤ side ∧ x + w ≤ side
  ∧ y ≤ side - (y + h) ≤ y + 1 ∧ x ≤ side - (x + w) ≤ x + 1
  ∧ (w ≤ h → y = 0) ∧ (h ≤ w → x = 0).
Proof.
  intros side y x.
  pose proof (half_bounds (side - h)). pose proof (half_bounds (side - w)).
  fold y in H. fold x in H0.
  repeat split; lia.
Qed.

Lemma rect_shape1 (h w c : nat) (img : ndarray) :
  Np.rect h w c img → 0 < h → Np.shape1 img = w.
Proof.
  intros [Hlen Hrows] Hh. destruct img as [|row img]; simpl in *; [lia|].
  unfold Np.shape1; simpl. by apply Forall_cons in Hrows as [[? _] _].
Qed.

Lemma rect_shape2 (h w c : nat) (img : ndarray) :
  Np.rect h w c img → 0 < h → 0 < w → Np.shape2 img = c.
Proof.
  intros [Hlen Hrows] Hh Hw. destruct img as [|row img]; simpl in *; [lia|].
  apply Forall_cons in Hrows as [[Hrow Hpx] _].
  destruct row as [|px row]; simpl in *; [lia|].
  unfold Np.shape2; simpl. by apply Forall_cons in Hpx as [? _].
Qed.

Lemma rect_row (h w c : nat) (img : ndarray) (i : nat) (row : list (list Z)) :
  Np.rect h w c img → img !! i = Some row →
  length row = w ∧ Forall (λ px, length px = c) row.
Proof. intros [_ Hrows] Hi. by apply (Forall_lookup_1 _ _ _ _ Hrows Hi). Qed.

(** The canvas, row by row: padding rows above and below, and every image
    row between padding pixels. *)
Lemma letterbox_canvas_rows (h w c : nat) (img : ndarray) :
  Np.rect h w c img → 0 < h → 0 < w →
  let side := Nat.max h w in
  let y := (side - h) / 2 in
  let x := (side - w) / 2 in
  let z := replicate c 0%Z in
  letterbox_canvas img
  = replicate y (replicate side z)
    ++ ((λ row, replicate x z ++ row ++ replicate (side - (x + w)) z) <$> img)
    ++ replicate (side - (y + h)) (replicate side z).
Proof.
  intros Hrect Hh Hw side y x z. unfold letterbox_canvas.
  rewrite (rect_shape1 h w c img Hrect Hh), (rect_shape2 h w c img Hrect Hh Hw).
  pose proof Hrect as [Hlen Hrows]. unfold Np.shape0. rewrite Hlen.
  fold side y x. unfold Np.assign_region, Np.zeros. fold z.
  rewrite take_replicate, !drop_replicate, take_replicate, Hlen.
  destruct (letterbox_offsets h w) as (Hy & Hx & _). fold side y x in Hy, Hx.
  rewrite (Nat.min_l y side) by lia.
  rewrite zip_with_replicate_l by lia.
  f_equal. f_equal.
  apply Forall_fmap_ext_1. eapply Forall_impl; [exact Hrows|].
  intros row [Hrow _]. unfold Np.splice.
  rewrite take_replicate, drop_replicate, Hrow.
  by rewrite (Nat.min_l x side) by lia.
Qed.

Lemma letterbox_canvas_rect (h w c : nat) (img : ndarray) :
  Np.rect h w c img → 0 < h → 0 < w →
  Np.rect (Nat.max h w) (Nat.max h w) c (letterbox_canvas img).
Proof.
  intros Hrect Hh Hw. rewrite (letterbox_canvas_rows h w c img Hrect Hh Hw).
  pose proof Hrect as [Hlen Hrows].
  set (side := Nat.max h w). set (y := (side - h) / 2). set (x := (side - w) / 2).
  destruct (letterbox_offsets h w) as (Hy & Hx & _). fold side y x in Hy, Hx.
  assert (Forall (λ px : list Z, length px = c) (replicate side (replicate c 0%Z)))
    as Hzrow by (apply Forall_replicate, length_replicate).
  split.
  - rewrite !length_app, !length_replicate, length_fmap. lia.
  - rewrite !Forall_app. split; [|split].
    + apply Forall_replicate. by rewrite length_replicate.
    + apply Forall_fmap. eapply Forall_impl; [exact Hrows|].
      intros row [Hrow Hpx]. simpl.
      rewrite !length_app, !length_replicate, Hrow. split; [lia|].
      rewrite !Forall_app. split; [|split]; [| done |];
        apply Forall_replicate, length_replicate.
    + apply Forall_replicate. by rewrite length_replicate.
Qed.

Lemma letterbox_canvas_pixel (h w c : nat) (img : ndarray) (i j : nat) :
  Np.rect h w c img → 0 < h → 0 < w →
  let side := Nat.max h w in
  let y := (side - h) / 2 in
  let x := (side - w) / 2 in
  i < side → j < side →
  Np.pixel (letterbox_canvas img) i j
  = if (y <=? i) && (i <? y + h) && (x <=? j) && (j <? x + w)
    then Np.pixel img (i - y) (j - x)
    else Some (replicate c 0%Z).
Proof.
  intros Hrect Hh Hw side y x Hi Hj.
  rewrite (letterbox_canvas_rows h w c img Hrect Hh Hw). fold side y x.
  pose proof Hrect as [Hlen Hrows].
  destruct (letterbox_offsets h w) as (Hy & Hx & _). fold side y x in Hy, Hx.
  unfold Np.pixel.
  destruct (decide (i < y)) as [Hlt|Hge].
  { rewrite lookup_app_l by (rewrite length_replicate; lia).
    rewrite lookup_replicate_2 by lia. simpl.
    rewrite lookup_replicate_2 by lia.
    by replace (y <=? i) with false by (symmetry; apply Nat.leb_gt; lia). }
  rewrite lookup_app_r by (rewrite length_replicate; lia).
  rewrite length_replicate.
  replace (y <=? i) with true by (symmetry; apply Nat.leb_le; lia).
  destruct (decide (i < y + h)) as [Hin|Hbelow].
  - rewrite lookup_app_l by (rewrite length_fmap; lia).
    rewrite list_lookup_fmap.
    destruct (lookup_lt_is_Some_2 img (i - y)) as [row Hrow]; [lia|].
    rewrite Hrow. simpl.
    destruct (rect_row h w c img _ row Hrect Hrow) as [Hw' _].
    replace (i <? y + h) with true by (symmetry; apply Nat.ltb_lt; lia). simpl.
    destruct (decide (j < x)) as [Hjl|Hjg].
    { rewrite lookup_app_l by (rewrite length_replicate; lia).
      rewrite lookup_replicate_2 by lia.
      by replace (x <=? j) with false by (symmetry; apply Nat.leb_gt; lia). }
    rewrite lookup_app_r by (rewrite length_replicate; lia).
    rewrite length_replicate.
    replace (x <=? j) with true by (symmetry; apply Nat.leb_le; lia). simpl.
    destruct (decide (j < x + w)) as [Hjin|Hjr].
    + rewrite lookup_app_l by lia.
      by replace (j <? x + w) with true by (symmetry; apply Nat.ltb_lt; lia).
    + rewrite lookup_app_r by lia. rewrite lookup_replicate_2 by lia.
      by replace (j <? x + w) with false by (symmetry; apply Nat.ltb_ge; lia).
  - rewrite lookup_app_r by (rewrite length_fmap; lia).
    rewrite length_fmap, lookup_replicate_2 by lia. simpl.
    rewrite lookup_replicate_2 by lia.
    by replace (i <? y + h) with false by (symmetry; apply Nat.ltb_ge; lia).
Qed.

Lemma flip_twice (img : ndarray) :
  Cv2.flip (Cv2.flip img 0) 1 = reverse <$> reverse img.
Proof. reflexivity. Qed.

Lemma flip_twice_rect (h w c : nat) (img : ndarray) :
  Np.rect h w c img → Np.rect h w c (Cv2.flip (Cv2.flip img 0) 1).
Proof.
  intros [Hlen Hrows]. rewrite flip_twice. split.
  - by rewrite length_fmap, length_reverse.
  - apply Forall_fmap, Forall_reverse. eapply Forall_impl; [exact Hrows|].
    intros row [Hrow Hpx]. simpl. rewrite length_reverse.
    split; [done|]. by apply Forall_reverse.
Qed.

Lemma flip_twice_pixel (h w c : nat) (img : ndarray) (i j : nat) :
  Np.rect h w c img → i < h → j < w →
  Np.pixel (Cv2.flip (Cv2.flip img 0) 1) i j = Np.pixel img (h - 1 - i) (w - 1 - j).
Proof.
  intros Hrect Hi Hj. pose proof Hrect as [Hlen Hrows].
  rewrite flip_twice. unfold Np.pixel.
  rewrite list_lookup_fmap, reverse_lookup by lia. rewrite Hlen.
  replace (h - S i) with (h - 1 - i) by lia.
  destruct (lookup_lt_is_Some_2 img (h - 1 - i)) as [row Hrow]; [lia|].
  rewrite Hrow. simpl.
  destruct (rect_row h w c img _ row Hrect Hrow) as [Hw _].
  rewrite reverse_lookup by lia. rewrite Hw. f_equal. lia.
Qed.

Lemma flip_twice_rot180 (h w c : nat) (img : ndarray) :
  Np.rect h w c img → Cv2.flip (Cv2.flip img 0) 1 = rot180 img.
Proof.
  intros Hrect. pose proof Hrect as [Hlen Hrows].
  destruct (decide (h = 0)) as [->|Hh].
  { destruct img; [done|simpl in Hlen; lia]. }
  unfold rot180. rewrite (rect_shape1 h w c img Hrect) by lia.
  unfold Np.shape0. rewrite Hlen.
  apply list_eq. intros i. rewrite list_lookup_fmap.
  destruct (decide (i < h)) as [Hi|Hi].
  - rewrite lookup_seq_lt by done. simpl.
    pose proof (flip_twice_rect h w c img Hrect) as Hrect'.
    destruct (lookup_lt_is_Some_2 (Cv2.flip (Cv2.flip img 0) 1) i) as [row Hrow].
    { destruct Hrect' as [-> _]. done. }
    rewrite Hrow. f_equal.
    destruct (rect_row h w c _ _ row Hrect' Hrow) as [Hw _].
    apply list_eq. intros j. rewrite list_lookup_fmap.
    destruct (decide (j < w)) as [Hj|Hj].
    + rewrite lookup_seq_lt by done. simpl.
      pose proof (flip_twice_pixel h w c img i j Hrect Hi Hj) as Hpx.
      unfold Np.pixel in Hpx at 1. rewrite Hrow in Hpx. simpl in Hpx.
      rewrite Hpx, <- Hpx.
      destruct (lookup_lt_is_Some_2 row j) as [px ->]; [lia|done].
    + rewrite lookup_seq_ge by lia. simpl. apply lookup_ge_None_2. lia.
  - rewrite lookup_seq_ge by lia. simpl. apply lookup_ge_None_2.
    rewrite flip_twice, length_fmap, length_reverse. lia.
Qed.

End Arrays.

Lemma nearest_resizes (results : list (list Box)) (ocr : ndarray → list string) :
  resizes (Demo.scripted results ocr).
Proof.
  intros src [W H] dst h w c Hh Hw Hrect HW HH. simpl in *.
  unfold Demo.nearest. simpl.
  rewrite (rect_shape2 h w c src Hrect Hh Hw). split.
  - by rewrite length_fmap, length_seq.
  - apply Forall_fmap, Forall_forall. intros i _. simpl.
    rewrite length_fmap, length_seq. split; [done|].
    apply Forall_fmap, Forall_forall. intros j _. simpl.
    unfold Np.pixel.
    destruct (src !! _) as [row|] eqn:Hrow; simpl; [|apply length_replicate].
    destruct (row !! _) as [px|] eqn:Hpx; simpl; [|apply length_replicate].
    destruct (rect_row h w c src _ row Hrect Hrow) as [_ Hall].
    apply (Forall_lookup_1 _ _ _ _ Hall Hpx).
Qed.

(** C5.  For an image of h rows and w columns (both positive) and a target
    size t: if h = w the image goes to [cv2.resize] as it is; otherwise the
    array that goes to [cv2.resize] is a square canvas of side max(h, w) that
    holds the image at row offset (side - h) div 2 and column offset
    (side - w) div 2 and zero pixels everywhere else.  The offsets centre the
    image: the margins on both sides of an axis differ by at most one, and
    there is no margin on the longer axis.  With a [cv2.resize] that returns
    the size it is asked for, the result is t by t. *)
Theorem letterbox_resize_centred (E : collaborators) (img : ndarray)
    (h w c : nat) (t : Z) :
  (0 < h)%nat → (0 < w)%nat → Np.rect h w c img →
  let side := Nat.max h w in
  let y := Nat.div (side - h) 2 in
  let x := Nat.div (side - w) 2 in
  (h = w →
   letterbox_resize E img (t, t) = cv2_resize E img (t, t) (Some Cv2.INTER_AREA))
  ∧ (h ≠ w →
     letterbox_resize E img (t, t)
     = cv2_resize E (letterbox_canvas img) (t, t) None)
  ∧ Np.rect side side c (letterbox_canvas img)
  ∧ (∀ i j, (i < side)%nat → (j < side)%nat →
       Np.pixel (letterbox_canvas img) i j
       = if (y <=? i)%nat && (i <? y + h)%nat && (x <=? j)%nat && (j <? x + w)%nat
         then Np.pixel img (i - y) (j - x)
         else Some (replicate c 0))
  ∧ ((y + h ≤ side)%nat ∧ (x + w ≤ side)%nat
     ∧ (y ≤ side - (y + h) ≤ y + 1)%nat ∧ (x ≤ side - (x + w) ≤ x + 1)%nat
     ∧ ((w ≤ h)%nat → y = 0%nat) ∧ ((h ≤ w)%nat → x = 0%nat))
  ∧ (resizes E → 0 < t →
     Np.rect (Z.to_nat t) (Z.to_nat t) c (letterbox_resize E img (t, t))).
Proof.
  intros Hh Hw Hrect side y x.
  assert (Np.shape0 img = h) as H0 by apply Hrect.
  pose proof (rect_shape1 h w c img Hrect Hh) as H1.
  assert (h = w →
          letterbox_resize E img (t, t)
          = cv2_resize E img (t, t) (Some Cv2.INTER_AREA)) as Hsq.
  { intros Heq. unfold letterbox_resize. rewrite H0, H1.
    by rewrite (proj2 (Nat.eqb_eq h w) Heq). }
  assert (h ≠ w →
          letterbox_resize E img (t, t)
          = cv2_resize E (letterbox_canvas img) (t, t) None) as Hpad.
  { intros Hne. unfold letterbox_resize. rewrite H0, H1.
    rewrite (proj2 (Nat.eqb_neq h w) Hne).
    unfold letterbox_canvas. by rewrite H0, H1. }
  pose proof (letterbox_canvas_rect h w c img Hrect Hh Hw) as Hcanvas.
  split; [exact Hsq|]. split; [exact Hpad|]. split; [exact Hcanvas|].
  split; [intros i j; apply (letterbox_canvas_pixel h w c img i j Hrect Hh Hw)|].
  split; [apply letterbox_offsets|].
  intros Hresize Ht. destruct (decide (h = w)) as [Heq|Hne].
  - rewrite (Hsq Heq). apply (Hresize img (t, t) _ h w c); done.
  - rewrite (Hpad Hne).
    apply (Hresize (letterbox_canvas img) (t, t) _ side side c);
      [subst side; lia | subst side; lia | done | done | done].
Qed.

Lemma letterbox_resize_centred_witness :
  letterbox_resize (Demo.scripted [] (λ _, [])) [[[1]; [2]; [3]]] (6, 6)
  = [[[0]; [0]; [0]; [0]; [0]; [0]]; [[0]; [0]; [0]; [0]; [0]; [0]];
     [[1]; [1]; [2]; [2]; [3]; [3]]; [[1]; [1]; [2]; [2]; [3]; [3]];
     [[0]; [0]; [0]; [0]; [0]; [0]]; [[0]; [0]; [0]; [0]; [0]; [0]]]
  ∧ Np.rect 6 6 1 (letterbox_resize (Demo.scripted [] (λ _, [])) [[[1]; [2]; [3]]] (6, 6)).
Proof.
  split; [reflexivity|].
  assert (Np.rect 1 3 1 [[[1]; [2]; [3]]]) as Hrect.
  { split; [reflexivity|]. repeat constructor. }
  destruct (letterbox_resize_centred (Demo.scripted [] (λ _, [])) [[[1]; [2]; [3]]]
              1 3 1 6 ltac:(lia) ltac:(lia) Hrect) as (_ & _ & _ & _ & _ & H).
  apply H; [apply nearest_resizes | lia].
Defined.

(** C6.  With the flip flag set, [image_callback] caches the frame flipped
    around the x-axis and then around the y-axis.  On an array of h rows and
    w columns the two flips together are the rotation by 180 degrees: the
    pixel at (i, j) of the result is the pixel at (h-1-i, w-1-j) of the
    input, for every pixel.  They are not a mirror: on a frame without
    symmetry the result differs from both single flips. *)
Theorem flip_is_rotation (E : collaborators) :
  (∀ (msg : ROSImage) (img : ndarray) (s : node),
     imgmsg_to_cv2 E msg "bgr8" = inr img → flip_image (params s) = true →
     ∃ r, cam_image (image_callback E msg s).2 = Some r
          ∧ heap (image_callback E msg s).2 !! r
            = Some (Cv2.flip
                      (Cv2.flip
                         (if 0 <? image_resize (params s)
                          then letterbox_resize E img
                                 (image_resize (params s), image_resize (params s))
                          else img) 0) 1))
  ∧ (∀ (img : ndarray) (h w c : nat),
       Np.rect h w c img →
       Cv2.flip (Cv2.flip img 0) 1 = rot180 img
       ∧ Np.rect h w c (Cv2.flip (Cv2.flip img 0) 1)
       ∧ ∀ i j, (i < h)%nat → (j < w)%nat →
           Np.pixel (Cv2.flip (Cv2.flip img 0) 1) i j
           = Np.pixel img (h - 1 - i) (w - 1 - j))
  ∧ (Cv2.flip (Cv2.flip [[[1]; [2]]; [[3]; [4]]] 0) 1 = [[[4]; [3]]; [[2]; [1]]]
     ∧ Cv2.flip (Cv2.flip [[[1]; [2]]; [[3]; [4]]] 0) 1
       ≠ Cv2.flip [[[1]; [2]]; [[3]; [4]]] 1
     ∧ Cv2.flip (Cv2.flip [[[1]; [2]]; [[3]; [4]]] 0) 1
       ≠ Cv2.flip [[[1]; [2]]; [[3]; [4]]] 0).
Proof.
  split; [|split].
  - intros msg img s Hmsg Hflip.
    rewrite (image_callback_run E msg img s Hmsg). cbn [snd].
    eexists. split; [reflexivity|]. cbn [heap with_cam_image with_heap].
    rewrite lookup_insert_eq. unfold preprocess. by rewrite Hflip.
  - intros img h w c Hrect. split; [by apply flip_twice_rot180 with h w c|].
    split; [by apply flip_twice_rect|].
    intros i j. by apply flip_twice_pixel with c.
  - split; [reflexivity|]. split; by vm_compute.
Qed.

Lemma flip_is_rotation_witness :
  Cv2.flip (Cv2.flip [[[1]; [2]; [3]]; [[4]; [5]; [6]]] 0) 1
  = rot180 [[[1]; [2]; [3]]; [[4]; [5]; [6]]].
Proof.
  destruct (flip_is_rotation (Demo.scripted [] (λ _, []))) as (_ & H & _).
  apply (H [[[1]; [2]; [3]]; [[4]; [5]; [6]]] 2%nat 3%nat 1%nat).
  split; [reflexivity|]. repeat constructor.
Defined.

(** ** The analyzer: counting and the largest area *)

Lemma Qgtb_lt (a b : Q) : Qgtb a b = true ↔ (b < a)%Q.
Proof.
  unfold Qgtb. rewrite negb_true_iff. split.
  - intros H. apply Qnot_le_lt. intros Hle.
    apply Qle_bool_iff in Hle. congruence.
  - intros H. destruct (Qle_bool a b) eqn:Hle; [|done].
    apply Qle_bool_iff in Hle. by apply Qlt_not_le in H.
Qed.

Lemma Qgtb_le (a b : Q) : Qgtb a b = false ↔ (a <= b)%Q.
Proof.
  unfold Qgtb. rewrite negb_false_iff. apply Qle_bool_iff.
Qed.

Lemma box_area_formula (image_size : Z) (box : Box) :
  (box_area image_size box
   == 100 * ((xywh box).1.2 * (xywh box).2) / inject_Z image_size)%Q.
Proof.
  unfold box_area. destruct (xywh box) as [[[x y] w] h]. simpl.
  unfold Qdiv. by rewrite Qmult_assoc.
Qed.

Section Tally.

Variables (E : collaborators) (mode : string) (frame : ndarray) (image_size : Z).

Local Abbreviation area := (box_area image_size).
Local Abbreviation step := (tally E mode frame image_size).
Local Abbreviation ok := (accepted E mode frame).

Lemma tally_count (boxes : list Box) (acc : Z * Q) :
  (foldl step acc boxes).1
  = acc.1 + Z.of_nat (length (filter (λ b, ok b) boxes)).
Proof.
  revert acc. induction boxes as [|b boxes IH]; intros acc; simpl; [lia|].
  rewrite IH. unfold tally, counted.
  destruct (ok b) eqn:Hb.
  - rewrite filter_cons_True by (simpl; rewrite Hb; exact I). simpl. lia.
  - by rewrite filter_cons_False by (simpl; rewrite Hb; simpl; tauto).
Qed.

Lemma tally_count_all (boxes : list Box) (acc : Z * Q) :
  String.eqb mode "stop" = false →
  (foldl step acc boxes).1 = acc.1 + Z.of_nat (length boxes).
Proof.
  intros Hmode. revert acc.
  induction boxes as [|b boxes IH]; intros acc; simpl; [lia|].
  rewrite IH. unfold tally, counted, accepted. rewrite Hmode. simpl. lia.
Qed.

Lemma tally_grows (boxes : list Box) (acc : Z * Q) :
  (acc.2 <= (foldl step acc boxes).2)%Q.
Proof.
  revert acc. induction boxes as [|b boxes IH]; intros acc; simpl;
    [apply Qle_refl|].
  eapply Qle_trans; [|apply IH].
  unfold tally, counted. destruct (accepted _ _ _ _); [|apply Qle_refl].
  simpl. destruct (Qgtb _ _) eqn:Hgt; [|apply Qle_refl].
  by apply Qlt_le_weak, Qgtb_lt.
Qed.

Lemma tally_covers (boxes : list Box) (acc : Z * Q) (b : Box) :
  b ∈ boxes → ok b = true → (area b <= (foldl step acc boxes).2)%Q.
Proof.
  revert acc. induction boxes as [|b' boxes IH]; intros acc Hin Hb;
    [by apply elem_of_nil in Hin|].
  apply elem_of_cons in Hin as [->|Hin]; simpl; [|by apply IH].
  eapply Qle_trans; [|apply tally_grows].
  unfold tally, counted. rewrite Hb. simpl.
  destruct (Qgtb _ _) eqn:Hgt; [apply Qle_refl|].
  by apply Qgtb_le.
Qed.

(** Boxes with smaller areas keep the running maximum below [a]. *)
Lemma tally_below (boxes : list Box) (acc : Z * Q) (a : Q) :
  (acc.2 < a)%Q →
  (∀ b, b ∈ boxes → ok b = true → (area b < a)%Q) →
  ((foldl step acc boxes).2 < a)%Q.
Proof.
  revert acc. induction boxes as [|b boxes IH]; intros acc Hacc Hall; simpl;
    [done|].
  apply IH; [|intros b' Hb'; apply Hall; by right].
  unfold tally, counted.
  destruct (ok b) eqn:Hb; [|done]. simpl.
  destruct (Qgtb _ _); [|done]. apply Hall; [by left|done].
Qed.

(** Boxes with areas up to the running maximum leave it as it is. *)
Lemma tally_keeps (boxes : list Box) (acc : Z * Q) :
  (∀ b, b ∈ boxes → ok b = true → (area b <= acc.2)%Q) →
  (foldl step acc boxes).2 = acc.2.
Proof.
  revert acc. induction boxes as [|b boxes IH]; intros acc Hall; simpl; [done|].
  assert ((step acc b).2 = acc.2) as Hstep.
  { unfold tally, counted.
    destruct (ok b) eqn:Hb; [|done]. simpl.
    rewrite (proj2 (Qgtb_le _ _)); [done|]. apply Hall; [by left|done]. }
  rewrite IH; [done|].
  intros b' Hb' Hok. rewrite Hstep. apply Hall; [by right|done].
Qed.

Lemma tally_first_maximum (l1 l2 : list Box) (b : Box) :
  ok b = true →
  (0 < area b)%Q →
  (∀ b', b' ∈ l1 → ok b' = true → (area b' < area b)%Q) →
  (∀ b', b' ∈ l2 → ok b' = true → (area b' <= area b)%Q) →
  (foldl step (0, 0%Q) (l1 ++ b :: l2)).2 = area b.
Proof.
  intros Hb Hpos Hl1 Hl2. rewrite foldl_app. simpl.
  pose proof (tally_below l1 (0, 0%Q) (area b) Hpos Hl1) as Hbelow.
  assert ((step (foldl step (0, 0%Q) l1) b).2 = area b) as Hstep.
  { unfold tally at 1, counted. rewrite Hb. simpl.
    by rewrite (proj2 (Qgtb_lt _ _) Hbelow). }
  rewrite tally_keeps; [done|].
  intros b' Hb' Hok. rewrite Hstep. by apply Hl2.
Qed.

End Tally.

(** C7.  For a counted detection the analyzer computes the area
    100 * (box width * box height) / (frame height * frame width), adds one
    to the count, and replaces the running maximum only when the area is
    strictly greater.  So the reply carries the area of the first detection
    that attains the maximum: a later detection with an equal area leaves the
    value in place.  A 50 by 50 box on a 100 by 100 frame gives 25; two
    detections of area 10 give the count 2 and the size 10. *)
Theorem area_and_running_maximum (E : collaborators) :
  (∀ (image_size : Z) (box : Box),
     (box_area image_size box
      == 100 * ((xywh box).1.2 * (xywh box).2) / inject_Z image_size)%Q)
  ∧ (∀ a b : Q, Qgtb a b = true ↔ (b < a)%Q)
  ∧ (∀ (image output_image : ref) (mode : string) (image_size detected : Z)
       (biggest : Q) (box : Box) (frame o : ndarray) (s : node),
       heap s !! image = Some frame → heap s !! output_image = Some o →
       image ≠ output_image → accepted E mode frame box = true →
       (analyze_box E image output_image mode image_size (detected, biggest) box s).1
       = Returns (detected + 1,
                  if Qgtb (box_area image_size box) biggest
                  then box_area image_size box else biggest))
  ∧ (∀ (s : node) (r : ref) (frame : ndarray) (mode : string)
       (l1 l2 : list Box) (b : Box),
       cam_image s = Some r → heap s !! r = Some frame → mode ∈ valid_targets →
       detected_boxes E s mode frame = l1 ++ b :: l2 →
       accepted E mode frame b = true →
       (0 < box_area (frame_area frame) b)%Q →
       (∀ b', b' ∈ l1 → accepted E mode frame b' = true →
              (box_area (frame_area frame) b' < box_area (frame_area frame) b)%Q) →
       (∀ b', b' ∈ l2 → accepted E mode frame b' = true →
              (box_area (frame_area frame) b' <= box_area (frame_area frame) b)%Q) →
       ∃ resp, (handle_detection_request E mode s).1 = Returns resp
               ∧ size resp = box_area (frame_area frame) b
               ∧ (size resp
                  == 100 * ((xywh b).1.2 * (xywh b).2)
                     / inject_Z (Z.of_nat (length frame)
                                 * Z.of_nat (length (default [] (head frame)))))%Q)
  ∧ replied
      (handle_detection_request (Demo.scripted [[Demo.box 25 25 75 75]] (λ _, []))
         "tire" (Demo.holding (Demo.plain 100 100 [0; 0; 0]))).1
      1 25
  ∧ replied
      (handle_detection_request
         (Demo.scripted [[Demo.box 0 0 10 100; Demo.box 50 0 100 20]] (λ _, []))
         "tire" (Demo.holding (Demo.plain 100 100 [0; 0; 0]))).1
      2 10.
Proof.
  split; [apply box_area_formula|]. split; [apply Qgtb_lt|].
  split; [|split; [|split]].
  - intros image output_image mode image_size detected biggest box frame o s
      Himg Hout Hne Hok.
    rewrite (analyze_box_run E _ _ _ _ _ _ _ _ _ Himg Hout Hne). cbn [fst].
    unfold tally, counted. by rewrite Hok.
  - intros s r frame mode l1 l2 b Hcam Hr Hmode Hboxes Hok Hpos Hl1 Hl2.
    rewrite (handle_pass E mode r frame s Hcam Hr Hmode). cbn [fst].
    eexists. split; [reflexivity|]. cbn [size].
    assert ((pass_result E mode frame (detected_boxes E s mode frame)).2
            = box_area (frame_area frame) b) as ->.
    { rewrite Hboxes. unfold pass_result. by apply tally_first_maximum. }
    split; [done|]. apply box_area_formula.
  - by vm_compute.
  - by vm_compute.
Qed.

Lemma area_and_running_maximum_witness :
  ∃ resp,
    (handle_detection_request
       (Demo.scripted [[Demo.box 0 0 1 4; Demo.box 2 0 4 2]] (λ _, []))
       "tire" (Demo.holding (Demo.plain 4 4 [0; 0; 0]))).1 = Returns resp
    ∧ size resp = box_area 16 (Demo.box 0 0 1 4).
Proof.
  destruct (area_and_running_maximum
              (Demo.scripted [[Demo.box 0 0 1 4; Demo.box 2 0 4 2]] (λ _, [])))
    as (_ & _ & _ & H & _).
  destruct (H (Demo.holding (Demo.plain 4 4 [0; 0; 0])) 0%nat
              (Demo.plain 4 4 [0; 0; 0]) "tire"%string
              [] [Demo.box 2 0 4 2] (Demo.box 0 0 1 4))
    as (resp & Hresp & Hsize & _).
  - reflexivity.
  - reflexivity.
  - by_compute.
  - reflexivity.
  - reflexivity.
  - by vm_compute.
  - intros b' Hb'. by apply elem_of_nil in Hb'.
  - intros b' Hb' _. apply list_elem_of_singleton in Hb' as ->. by vm_compute.
  - exists resp. split; [exact Hresp|exact Hsize].
Defined.

(** C8 fails on the code: the analyzer has no test of a box against the
    frame bounds.  In tire mode a box that lies outside a 100 by 100 frame is
    counted, and its area becomes the size of the reply. *)
Lemma box_outside_frame_is_counted :
  Z.of_nat (Np.shape0 (Demo.plain 100 100 [0; 0; 0])) < 150
  ∧ Z.of_nat (Np.shape1 (Demo.plain 100 100 [0; 0; 0])) < 150
  ∧ xyxy (Demo.box 150 150 250 250) = (150, 150, 250, 250)%Q
  ∧ replied
      (handle_detection_request
         (Demo.scripted [[Demo.box 150 150 250 250]] (λ _, []))
         "tire" (Demo.holding (Demo.plain 100 100 [0; 0; 0]))).1
      1 100.
Proof. repeat split; by vm_compute. Qed.

Lemma stop_box_raises (L : library) (p : parameters) (frame : ndarray) (b : Box) :
  box_raises L p "stop" frame b
  = cvtColor_raises L (box_region frame b) Cv2.COLOR_BGR2RGB.
Proof. reflexivity. Qed.

Lemma tire_box_returns (L : library) (p : parameters) (frame : ndarray)
    (boxes : list Box) :
  Forall (λ b, box_raises L p "tire" frame b = None) boxes.
Proof. by apply Forall_forall. Qed.

(** C8 as amended.  The analyzer has no bounds check and catches no error.
    In tire mode every raw detection is counted and takes part in the size
    maximum, wherever its box lies.  In stop mode a detection is skipped only
    when the validator rejects the region sliced at its box, as long as
    [cv2.cvtColor] returns on the regions; when it raises on the region of a
    box, the error leaves the handler: there is no reply, the frame stays
    cached and the annotated frame is not published.  That is what happens
    for a box that starts at or beyond the last row or column of the frame
    with an OpenCV that rejects an array without a pixel. *)
Theorem no_bounds_check (L : library) (s : node) (r : ref) (frame : ndarray) :
  cam_image s = Some r → heap s !! r = Some frame →
  (∃ resp,
     (handle_detection_request L "tire" s).1 = Returns resp
     ∧ count resp = Z.of_nat (length (detected_boxes (calls L) s "tire" frame))
     ∧ ∀ b, b ∈ detected_boxes (calls L) s "tire" frame →
            (box_area (frame_area frame) b <= size resp)%Q)
  ∧ (Forall (λ b, cvtColor_raises L (box_region frame b) Cv2.COLOR_BGR2RGB = None)
       (detected_boxes (calls L) s "stop" frame) →
     ∃ resp,
       (handle_detection_request L "stop" s).1 = Returns resp
       ∧ count resp
         = Z.of_nat
             (length
                (filter
                   (λ b, reads_stop
                           (reader_readtext (calls L)
                              (cv2_cvtColor (calls L) (box_region frame b)
                                 Cv2.COLOR_BGR2RGB)))
                   (detected_boxes (calls L) s "stop" frame)))
       ∧ ∀ b, b ∈ detected_boxes (calls L) s "stop" frame →
              reads_stop
                (reader_readtext (calls L)
                   (cv2_cvtColor (calls L) (box_region frame b)
                      Cv2.COLOR_BGR2RGB)) = true →
              (box_area (frame_area frame) b <= size resp)%Q)
  ∧ (∀ pre b post text,
       detected_boxes (calls L) s "stop" frame = pre ++ b :: post →
       Forall (λ b, cvtColor_raises L (box_region frame b) Cv2.COLOR_BGR2RGB = None)
         pre →
       cvtColor_raises L (box_region frame b) Cv2.COLOR_BGR2RGB = Some text →
       (handle_detection_request L "stop" s).1 = Raises (Cv2Error text)
       ∧ cam_image (handle_detection_request L "stop" s).2 = Some r
       ∧ trace (handle_detection_request L "stop" s).2
         = trace s
           ++ predict (model_coco_path s) frame 11
              :: (pre ≫= box_events (calls L) (params s) "stop" frame))
  ∧ (raises_on_empty L →
     ∀ h w c pre b post,
       Np.rect h w c frame →
       detected_boxes (calls L) s "stop" frame = pre ++ b :: post →
       Forall (λ b, cvtColor_raises L (box_region frame b) Cv2.COLOR_BGR2RGB = None)
         pre →
       Z.of_nat h ≤ Py.int (xyxy b).1.1.2 ∨ Z.of_nat w ≤ Py.int (xyxy b).1.1.1 →
       ∃ text, (handle_detection_request L "stop" s).1 = Raises (Cv2Error text)).
Proof.
  intros Hcam Hr.
  assert ("tire"%string ∈ valid_targets) as Htire by by_compute.
  assert ("stop"%string ∈ valid_targets) as Hstop by by_compute.
  assert (∀ pre b post text,
            detected_boxes (calls L) s "stop" frame = pre ++ b :: post →
            Forall (λ b, cvtColor_raises L (box_region frame b) Cv2.COLOR_BGR2RGB
                         = None) pre →
            cvtColor_raises L (box_region frame b) Cv2.COLOR_BGR2RGB = Some text →
            handle_detection_request L "stop" s
            = (Raises (Cv2Error text), during_pass L s "stop" frame pre)) as Hraise.
  { intros pre b post text Hboxes Hpre Hb.
    by apply (handle_raises L "stop" r frame s pre post b text). }
  split; [|split; [|split]].
  - rewrite (handle_returns L "tire" r frame s Hcam Hr Htire
               (tire_box_returns L _ frame _)). cbn [fst].
    eexists. split; [reflexivity|]. cbn [count size]. unfold pass_result.
    split; [by rewrite tally_count_all|].
    intros b Hb. by apply tally_covers.
  - intros Hall.
    rewrite (handle_returns L "stop" r frame s Hcam Hr Hstop Hall). cbn [fst].
    eexists. split; [reflexivity|]. cbn [count size]. unfold pass_result.
    split; [by rewrite tally_count|].
    intros b Hb Hok. by apply tally_covers.
  - intros pre b post text Hboxes Hpre Hb.
    by rewrite (Hraise pre b post text Hboxes Hpre Hb).
  - intros Hempty h w c pre b post Hrect Hboxes Hpre Hout.
    destruct (Hempty (box_region frame b) Cv2.COLOR_BGR2RGB
                (box_region_beyond frame h w c b Hrect Hout)) as [text Hb].
    exists text. by rewrite (Hraise pre b post text Hboxes Hpre Hb).
Qed.

Lemma no_bounds_check_witness :
  (handle_detection_request
     (Demo.opencv [[Demo.box 1 1 3 3; Demo.box 7 7 9 9]] (λ _, ["STOP"%string]))
     "stop" (Demo.holding (Demo.plain 4 4 [0; 0; 0]))).1
  = Raises (Cv2Error "(-215:Assertion failed) !_src.empty()").
Proof.
  destruct (no_bounds_check
              (Demo.opencv [[Demo.box 1 1 3 3; Demo.box 7 7 9 9]]
                 (λ _, ["STOP"%string]))
              (Demo.holding (Demo.plain 4 4 [0; 0; 0])) 0%nat
              (Demo.plain 4 4 [0; 0; 0]) eq_refl eq_refl) as (_ & _ & H & _).
  destruct (H [Demo.box 1 1 3 3] (Demo.box 7 7 9 9) []
              "(-215:Assertion failed) !_src.empty()"%string) as [Hraise _].
  - reflexivity.
  - by repeat constructor.
  - reflexivity.
  - exact Hraise.
Defined.

(** ** Side channels and copies *)

Lemma reader_inputs_scan_log (readings : list string) :
  reader_inputs (scan_log readings) = [].
Proof.
  induction readings as [|text readings IH]; [done|].
  simpl. by destruct (Py.contains _ _).
Qed.

Lemma vest_masks_scan_log (readings : list string) :
  vest_masks (scan_log readings) = [].
Proof.
  induction readings as [|text readings IH]; [done|].
  simpl. by destruct (Py.contains _ _).
Qed.

Lemma reader_inputs_boxes (E : collaborators) (p : parameters) (mode : string)
    (frame : ndarray) (boxes : list Box) :
  reader_inputs (boxes ≫= box_events E p mode frame)
  = if String.eqb mode "stop"
    then (λ b, rgb_of E (box_region frame b)) <$> boxes else [].
Proof.
  unfold reader_inputs.
  induction boxes as [|b boxes IH]; [by destruct (String.eqb mode "stop")|].
  rewrite bind_cons, omap_app, IH. unfold box_events.
  destruct (String.eqb mode "stop"); simpl.
  - f_equal. fold (reader_inputs (scan_log (reader_readtext E (rgb_of E (box_region frame b))))).
    by rewrite reader_inputs_scan_log.
  - by destruct (String.eqb mode "person").
Qed.

Lemma vest_masks_boxes (E : collaborators) (p : parameters) (mode : string)
    (frame : ndarray) (boxes : list Box) :
  vest_masks (boxes ≫= box_events E p mode frame)
  = if String.eqb mode "person"
    then (λ b, vest_mask E p (box_region frame b)) <$> boxes else [].
Proof.
  unfold vest_masks.
  induction boxes as [|b boxes IH]; [by destruct (String.eqb mode "person")|].
  rewrite bind_cons, omap_app, IH. unfold box_events.
  destruct (String.eqb mode "stop") eqn:Hstop; simpl.
  - assert (String.eqb mode "person" = false) as ->.
    { apply String.eqb_eq in Hstop. by subst mode. }
    fold (vest_masks (scan_log (reader_readtext E (rgb_of E (box_region frame b))))).
    by rewrite vest_masks_scan_log.
  - by destruct (String.eqb mode "person").
Qed.

Lemma after_pass_reader_inputs (E : collaborators) (s : node) (mode : string)
    (frame : ndarray) :
  reader_inputs (trace (after_pass E s mode frame))
  = reader_inputs (trace s)
    ++ if String.eqb mode "stop"
       then (λ b, rgb_of E (box_region frame b)) <$> detected_boxes E s mode frame
       else [].
Proof.
  unfold after_pass, pass_events. cbn [trace with_cam_image with_events with_heap].
  unfold reader_inputs at 1. rewrite omap_app. f_equal.
  change (omap ?f (?e :: ?l)) with (omap f l). rewrite omap_app.
  fold (reader_inputs (detected_boxes E s mode frame ≫= box_events E (params s) mode frame)).
  rewrite reader_inputs_boxes. simpl. by rewrite app_nil_r.
Qed.

Lemma after_pass_vest_masks (E : collaborators) (s : node) (mode : string)
    (frame : ndarray) :
  vest_masks (trace (after_pass E s mode frame))
  = vest_masks (trace s)
    ++ if String.eqb mode "person"
       then (λ b, vest_mask E (params s) (box_region frame b))
            <$> detected_boxes E s mode frame
       else [].
Proof.
  unfold after_pass, pass_events. cbn [trace with_cam_image with_events with_heap].
  unfold vest_masks at 1. rewrite omap_app. f_equal.
  change (omap ?f (?e :: ?l)) with (omap f l). rewrite omap_app.
  fold (vest_masks (detected_boxes E s mode frame ≫= box_events E (params s) mode frame)).
  rewrite vest_masks_boxes. simpl. by rewrite app_nil_r.
Qed.

(** C9, evaluated on the code.  The claim has the segmenter run on the region
    of each person detection as a side channel, every detection counted.
    [orange_vest_mask] hands [cv2.inRange] the objects that [get_parameter]
    returns, not their values.  When [cv2.inRange] raises on these bounds,
    the request fails at the first detection: the error leaves the handler
    before the detection is counted, no mask and no annotated frame is
    published, no reply is sent and the frame stays cached.  With an OpenCV
    that rejects every such call, that is the fate of every person request
    for which the detector returns a box. *)
Theorem person_pass_raises (L : library) (s : node) (r : ref) (frame : ndarray)
    (b : Box) (rest : list Box) :
  cam_image s = Some r → heap s !! r = Some frame →
  detected_boxes (calls L) s "person" frame = b :: rest →
  (∀ text,
     cvtColor_raises L (box_region frame b) Cv2.COLOR_BGR2HSV = None →
     inRange_raises L
       (cv2_cvtColor (calls L) (box_region frame b) Cv2.COLOR_BGR2HSV)
       (tcol_lower (params s)) (tcol_upper (params s)) = Some text →
     (handle_detection_request L "person" s).1 = Raises (Cv2Error text))
  ∧ ((∀ src lowerb upperb, is_Some (inRange_raises L src lowerb upperb)) →
     ∃ text,
       (handle_detection_request L "person" s).1 = Raises (Cv2Error text)
       ∧ cam_image (handle_detection_request L "person" s).2 = Some r
       ∧ trace (handle_detection_request L "person" s).2
         = trace s ++ [predict (model_coco_path s) frame 0]).
Proof.
  intros Hcam Hr Hboxes.
  assert ("person"%string ∈ valid_targets) as Hmode by by_compute.
  assert (∀ text, box_raises L (params s) "person" frame b = Some text →
            handle_detection_request L "person" s
            = (Raises (Cv2Error text), during_pass L s "person" frame []))
    as Hraise.
  { intros text Hb.
    by apply (handle_raises L "person" r frame s [] rest b text). }
  split.
  - intros text Hcv Hin. rewrite (Hraise text); [done|].
    unfold box_raises. cbn [String.eqb Ascii.eqb Bool.eqb]. by rewrite Hcv.
  - intros Hall.
    assert (∃ text, box_raises L (params s) "person" frame b = Some text)
      as [text Hb].
    { unfold box_raises. cbn [String.eqb Ascii.eqb Bool.eqb].
      destruct (cvtColor_raises L _ _) as [text|]; [by exists text|].
      apply Hall. }
    exists text. by rewrite (Hraise text Hb).
Qed.

Lemma person_pass_raises_witness :
  (handle_detection_request (Demo.opencv [[Demo.box 1 1 3 3]] (λ _, []))
     "person" (Demo.holding (Demo.plain 4 4 [30; 220; 150]))).1
  = Raises (Cv2Error "lowerb is not a numerical tuple").
Proof.
  destruct (person_pass_raises (Demo.opencv [[Demo.box 1 1 3 3]] (λ _, []))
              (Demo.holding (Demo.plain 4 4 [30; 220; 150])) 0%nat
              (Demo.plain 4 4 [30; 220; 150]) (Demo.box 1 1 3 3) []
              eq_refl eq_refl eq_refl) as [H _].
  apply H; reflexivity.
Defined.

(** C10.  A pass works on copies.  The handler copies the cached frame into
    a new array, the detector reads that copy, and the analyzer copies it
    once more into the annotation buffer, the only array the drawing calls
    write.  After the pass the cached array and the first copy still hold the
    frame.  Every region shown to the text reader (stop mode) or to the vest
    segmenter (person mode) is the slice of the unannotated frame at the box,
    so neither the reply nor these regions depend on what the drawing calls
    do. *)
Theorem pass_works_on_copies (E : collaborators) (s : node) (r : ref)
    (frame : ndarray) (mode : string) :
  cam_image s = Some r → heap s !! r = Some frame → mode ∈ valid_targets →
  let s' := (handle_detection_request E mode s).2 in
  let im := fresh (dom (heap s)) in
  let out := fresh (dom (<[im := frame]> (heap s))) in
  let boxes := detected_boxes E s mode frame in
  (heap s !! im = None ∧ heap s !! out = None ∧ im ≠ out)
  ∧ heap s' !! r = Some frame
  ∧ heap s' !! im = Some frame
  ∧ heap s' !! out = Some (pass_annotated E mode frame boxes)
  ∧ (∀ r', r' ≠ im → r' ≠ out → heap s' !! r' = heap s !! r')
  ∧ trace s'
    = trace s
      ++ predict (model_path_of s mode) frame (class_of mode)
         :: (boxes ≫= box_events E (params s) mode frame)
         ++ [publish "yolo_detection_window" (pass_annotated E mode frame boxes)
               "bgr8"]
  ∧ reader_inputs (trace s')
    = reader_inputs (trace s)
      ++ (if String.eqb mode "stop"
          then (λ b, cv2_cvtColor E (box_region frame b) Cv2.COLOR_BGR2RGB) <$> boxes
          else [])
  ∧ vest_masks (trace s')
    = vest_masks (trace s)
      ++ (if String.eqb mode "person"
          then (λ b, vest_mask E (params s) (box_region frame b)) <$> boxes
          else [])
  ∧ ∀ line rectangle putText,
      (handle_detection_request (with_drawing E line rectangle putText) mode s).1
      = (handle_detection_request E mode s).1
      ∧ reader_inputs
          (trace (handle_detection_request
                    (with_drawing E line rectangle putText) mode s).2)
        = reader_inputs (trace s')
      ∧ vest_masks
          (trace (handle_detection_request
                    (with_drawing E line rectangle putText) mode s).2)
        = vest_masks (trace s').
Proof.
  intros Hcam Hr Hmode s' im out boxes. subst s'.
  rewrite (handle_pass E mode r frame s Hcam Hr Hmode). cbn [fst snd].
  assert (heap s !! im = None) as Him by apply fresh_ref_unused.
  assert ((<[im := frame]> (heap s)) !! out = None) as Hout by apply fresh_ref_unused.
  assert (im ≠ out) as Hne.
  { intros Heq. rewrite <- Heq, lookup_insert_eq in Hout. done. }
  assert (heap s !! out = None) as Hout'.
  { by rewrite lookup_insert_ne in Hout. }
  assert (r ≠ im) as Hrim by (intros ->; congruence).
  assert (r ≠ out) as Hrout by (intros ->; congruence).
  split; [done|].
  unfold after_pass at 1 2 3 4. cbn [heap with_cam_image with_events with_heap].
  fold im out boxes.
  split; [by rewrite !lookup_insert_ne|].
  split; [by rewrite lookup_insert_ne, lookup_insert_eq|].
  split; [by rewrite lookup_insert_eq|].
  split; [intros r' H1 H2; by rewrite !lookup_insert_ne|].
  split; [reflexivity|].
  split; [apply after_pass_reader_inputs|].
  split; [apply after_pass_vest_masks|].
  intros line rectangle putText.
  rewrite (handle_pass (with_drawing E line rectangle putText) mode r frame s
             Hcam Hr Hmode). cbn [fst snd].
  split; [reflexivity|].
  by rewrite !after_pass_reader_inputs, !after_pass_vest_masks.
Qed.

Lemma pass_works_on_copies_witness :
  replied
    (handle_detection_request
       (Demo.scripted [[Demo.box 1 1 3 3; Demo.box 1 1 3 3]] Demo.rejects_red)
       "stop" (Demo.holding (Demo.plain 4 4 [0; 0; 0]))).1
    2 25
  ∧ heap
      (handle_detection_request
         (Demo.scripted [[Demo.box 1 1 3 3; Demo.box 1 1 3 3]] Demo.rejects_red)
         "stop" (Demo.holding (Demo.plain 4 4 [0; 0; 0]))).2 !! 0%nat
    = Some (Demo.plain 4 4 [0; 0; 0])
  ∧ Np.pixel
      (pass_annotated
         (Demo.scripted [[Demo.box 1 1 3 3; Demo.box 1 1 3 3]] Demo.rejects_red)
         "stop" (Demo.plain 4 4 [0; 0; 0])
         [Demo.box 1 1 3 3; Demo.box 1 1 3 3]) 1 1
    = Some [0; 0; 255].
Proof.
  split; [by vm_compute|]. split; [|by vm_compute].
  destruct (pass_works_on_copies
              (Demo.scripted [[Demo.box 1 1 3 3; Demo.box 1 1 3 3]] Demo.rejects_red)
              (Demo.holding (Demo.plain 4 4 [0; 0; 0])) 0%nat
              (Demo.plain 4 4 [0; 0; 0]) "stop"%string)
    as (_ & H & _).
  - reflexivity.
  - reflexivity.
  - by_compute.
  - exact H.
Defined.

(** * Further properties of the node *)

(** ** Frame arrivals *)

Lemma handle_ignores_trace (E : collaborators) (target : string)
    (evs : list event) (s : node) :
  (handle_detection_request E target (with_events evs s)).1
  = (handle_detection_request E target s).1.
Proof.
  destruct (cam_image s) as [r|] eqn:Hcam.
  - destruct (decide (target ∈ valid_targets)) as [Hin|Hout].
    + destruct (heap s !! r) as [frame|] eqn:Hr.
      * rewrite (handle_pass E target r frame s Hcam Hr Hin).
        by rewrite (handle_pass E target r frame (with_events evs s) Hcam Hr Hin).
      * rewrite (handle_dangling E target r s Hcam Hr Hin).
        by rewrite (handle_dangling E target r (with_events evs s) Hcam Hr Hin).
    + rewrite (handle_unknown E target r s Hcam Hout).
      by rewrite (handle_unknown E target r (with_events evs s) Hcam Hout).
  - rewrite (handle_no_frame E target s Hcam).
    by rewrite (handle_no_frame E target (with_events evs s) Hcam).
Qed.

(** X1.  A message the bridge cannot decode only adds an error line to the
    log: the cached frame and the store stay as they were, and the reply to
    the next request is the one it would have been without the message. *)
Theorem undecodable_message_keeps_frame (E : collaborators) (msg : ROSImage)
    (e : string) (s : node) :
  imgmsg_to_cv2 E msg "bgr8" = inl e →
  trace (image_callback E msg s).2
  = trace s ++ [log_error ("CVBridge error: " +:+ e)]
  ∧ cam_image (image_callback E msg s).2 = cam_image s
  ∧ heap (image_callback E msg s).2 = heap s
  ∧ ∀ target,
      (handle_detection_request E target (image_callback E msg s).2).1
      = (handle_detection_request E target s).1.
Proof.
  intros Hmsg. rewrite (image_callback_error E msg e s Hmsg). cbn [snd].
  repeat split. intros target. apply handle_ignores_trace.
Qed.

Lemma undecodable_message_keeps_frame_witness :
  cam_image
    (image_callback (Demo.scripted [] (λ _, []))
       {| msg_height := 1; msg_width := 1; msg_encoding := "mono8";
          msg_data := [7] |}
       (Demo.holding (Demo.plain 2 2 [1; 2; 3]))).2
  = Some 0%nat.
Proof.
  destruct (undecodable_message_keeps_frame (Demo.scripted [] (λ _, []))
              {| msg_height := 1; msg_width := 1; msg_encoding := "mono8";
                 msg_data := [7] |}
              "unsupported image"
              (Demo.holding (Demo.plain 2 2 [1; 2; 3])))
    as (_ & H & _).
  - reflexivity.
  - rewrite H. reflexivity.
Defined.

(** X2.  The cache keeps the latest frame only.  After two frames arrive
    with no request between them, the node has logged and published nothing,
    and the next request with a valid target runs the detector once, on the
    second frame as preprocessed; the first frame is never looked at. *)
Theorem latest_frame_wins (E : collaborators) (msg1 msg2 : ROSImage)
    (img1 img2 : ndarray) (mode : string) (s : node) :
  imgmsg_to_cv2 E msg1 "bgr8" = inr img1 →
  imgmsg_to_cv2 E msg2 "bgr8" = inr img2 →
  mode ∈ valid_targets →
  let s2 := (image_callback E msg2 (image_callback E msg1 s).2).2 in
  let frame := preprocess E (params s) img2 in
  trace s2 = trace s
  ∧ (∃ r, cam_image s2 = Some r ∧ heap s2 !! r = Some frame)
  ∧ (handle_detection_request E mode s2).1
    = Returns {| count := (pass_result E mode frame (detected_boxes E s mode frame)).1;
                 size := (pass_result E mode frame (detected_boxes E s mode frame)).2 |}
  ∧ filter is_predict (trace (handle_detection_request E mode s2).2)
    = filter is_predict (trace s)
      ++ [predict (model_path_of s mode) frame (class_of mode)].
Proof.
  intros H1 H2 Hmode s2 frame. subst s2.
  rewrite (image_callback_run E msg1 img1 s H1). cbn [snd].
  rewrite (image_callback_run E msg2 img2 _ H2). cbn [snd].
  set (s2 := with_cam_image _ (with_heap _ (with_cam_image _ _))).
  assert (∃ r, cam_image s2 = Some r ∧ heap s2 !! r = Some frame)
    as (r & Hcam & Hr).
  { eexists. split; [reflexivity|]. subst s2. cbn [heap with_cam_image with_heap].
    apply lookup_insert_eq. }
  split; [reflexivity|]. split; [by exists r|].
  rewrite (handle_pass E mode r frame s2 Hcam Hr Hmode). cbn [fst snd].
  split; [reflexivity|]. rewrite after_pass_predicts. reflexivity.
Qed.

Lemma latest_frame_wins_witness :
  filter is_predict
    (trace
       (handle_detection_request (Demo.scripted [[Demo.box 0 0 1 1]] (λ _, [])) "tire"
          (image_callback (Demo.scripted [[Demo.box 0 0 1 1]] (λ _, []))
             (Demo.bgr8 1 1 [4; 5; 6])
             (image_callback (Demo.scripted [[Demo.box 0 0 1 1]] (λ _, []))
                (Demo.bgr8 1 1 [1; 2; 3])
                (init (Demo.config 2 false))).2).2).2)
  = [predict "tire.pt" (Demo.plain 2 2 [4; 5; 6]) 0].
Proof.
  destruct (latest_frame_wins (Demo.scripted [[Demo.box 0 0 1 1]] (λ _, []))
              (Demo.bgr8 1 1 [1; 2; 3]) (Demo.bgr8 1 1 [4; 5; 6])
              [[[1; 2; 3]]] [[[4; 5; 6]]] "tire" (init (Demo.config 2 false)))
    as (_ & _ & _ & H).
  - reflexivity.
  - reflexivity.
  - by_compute.
  - rewrite H. by vm_compute.
Defined.

Lemma letterbox_resize_rect (E : collaborators) (img : ndarray) (h w c : nat)
    (t : Z) :
  resizes E → 0 < t → (0 < h)%nat → (0 < w)%nat → Np.rect h w c img →
  Np.rect (Z.to_nat t) (Z.to_nat t) c (letterbox_resize E img (t, t)).
Proof.
  intros Hresize Ht Hh Hw Hrect.
  assert (Np.shape0 img = h) as H0 by apply Hrect.
  pose proof (rect_shape1 h w c img Hrect Hh) as H1.
  unfold letterbox_resize. rewrite H0, H1.
  destruct (Nat.eqb h w) eqn:Heq.
  - by apply (Hresize img (t, t) _ h w c).
  - pose proof (letterbox_canvas_rect h w c img Hrect Hh Hw) as Hcanvas.
    unfold letterbox_canvas in Hcanvas. rewrite H0, H1 in Hcanvas.
    apply (Hresize _ (t, t) _ (Nat.max h w) (Nat.max h w) c);
      [lia | lia | exact Hcanvas | done | done].
Qed.

(** X3.  With a positive [image_resize] t, every frame the callback caches
    is t by t with the channels of the input, whatever the shape of the
    decoded image and whether or not the flip is on (given a [cv2.resize]
    that returns the size it is asked for). *)
Theorem cached_frame_is_square (E : collaborators) (msg : ROSImage)
    (img : ndarray) (h w c : nat) (s : node) :
  resizes E →
  imgmsg_to_cv2 E msg "bgr8" = inr img →
  (0 < h)%nat → (0 < w)%nat → Np.rect h w c img →
  0 < image_resize (params s) →
  ∃ r frame,
    cam_image (image_callback E msg s).2 = Some r
    ∧ heap (image_callback E msg s).2 !! r = Some frame
    ∧ Np.rect (Z.to_nat (image_resize (params s)))
        (Z.to_nat (image_resize (params s))) c frame.
Proof.
  intros Hresize Hmsg Hh Hw Hrect Ht.
  rewrite (image_callback_run E msg img s Hmsg). cbn [snd].
  eexists _, _. split; [reflexivity|].
  cbn [heap with_cam_image with_heap]. split; [apply lookup_insert_eq|].
  unfold preprocess. rewrite (proj2 (Z.ltb_lt _ _) Ht).
  pose proof (letterbox_resize_rect E img h w c _ Hresize Ht Hh Hw Hrect) as Hsq.
  destruct (flip_image (params s)); [by apply flip_twice_rect|done].
Qed.

Lemma cached_frame_is_square_witness :
  ∃ r frame,
    cam_image (image_callback (Demo.scripted [] (λ _, []))
                 (Demo.bgr8 1 2 [1; 2; 3; 4; 5; 6])
                 (init (Demo.config 4 true))).2 = Some r
    ∧ heap (image_callback (Demo.scripted [] (λ _, []))
              (Demo.bgr8 1 2 [1; 2; 3; 4; 5; 6])
              (init (Demo.config 4 true))).2 !! r = Some frame
    ∧ Np.rect 4 4 3 frame.
Proof.
  apply (cached_frame_is_square (Demo.scripted [] (λ _, []))
           (Demo.bgr8 1 2 [1; 2; 3; 4; 5; 6]) [[[1; 2; 3]; [4; 5; 6]]]
           1 2 3 (init (Demo.config 4 true))).
  - apply nearest_resizes.
  - reflexivity.
  - lia.
  - lia.
  - split; [reflexivity|]. repeat constructor.
  - reflexivity.
Defined.

(** ** What the guards of the handler are for *)

(** X4.  Called on its own, [detect] raises: [KeyError] for a mode outside
    stop, tire, person, and [AttributeError] for a valid mode when no frame
    is cached.  In both cases it raises before it touches the node: nothing
    is logged, run or published. *)
Theorem detect_raises_unguarded (E : collaborators) (mode : string) (s : node) :
  (mode ∉ valid_targets → detect E mode s = (Raises KeyError, s))
  ∧ (mode ∈ valid_targets → cam_image s = None →
     detect E mode s = (Raises AttributeError, s)).
Proof.
  split.
  - intros Hmode. unfold valid_targets in Hmode.
    assert (mode ≠ "stop" ∧ mode ≠ "tire" ∧ mode ≠ "person")%string
      as (H1 & H2 & H3) by (set_unfold in Hmode; naive_solver).
    unfold detect. rewrite !get_attr_bind. apply bind_raises.
    unfold subscript.
    by rewrite !lookup_insert_ne, lookup_empty by done.
  - intros Hmode Hcam. unfold detect.
    destruct (tables_lookup s mode Hmode) as [Hp _].
    rewrite !get_attr_bind. unfold subscript.
    by rewrite Hp, ret_bind, get_attr_bind, Hcam.
Qed.

Lemma detect_raises_unguarded_witness :
  detect (Demo.scripted [] (λ _, [])) "bike" (Demo.holding (Demo.plain 2 2 [0; 0; 0]))
  = (Raises KeyError, Demo.holding (Demo.plain 2 2 [0; 0; 0])).
Proof.
  destruct (detect_raises_unguarded (Demo.scripted [] (λ _, [])) "bike"
              (Demo.holding (Demo.plain 2 2 [0; 0; 0]))) as [H _].
  apply H. by_compute.
Defined.







(** ** The reply *)

Lemma pass_result_size_nonneg (E : collaborators) (mode : string)
    (frame : ndarray) (boxes : list Box) :
  (0 <= (pass_result E mode frame boxes).2)%Q.
Proof. unfold pass_result. apply (tally_grows E mode frame _ boxes (0, 0%Q)). Qed.

Lemma pass_result_count_le (E : collaborators) (mode : string)
    (frame : ndarray) (boxes : list Box) :
  (pass_result E mode frame boxes).1 ≤ Z.of_nat (length boxes).
Proof.
  unfold pass_result. rewrite tally_count. simpl.
  pose proof (length_filter (λ b, accepted E mode frame b) boxes). lia.
Qed.

Lemma pass_result_none_counted (E : collaborators) (mode : string)
    (frame : ndarray) (boxes : list Box) :
  (pass_result E mode frame boxes).1 = 0 →
  (pass_result E mode frame boxes).2 = 0%Q.
Proof.
  unfold pass_result. rewrite tally_count. simpl. intros Hnone.
  rewrite tally_keeps; [done|].
  intros b Hb Hok. exfalso.
  assert (b ∈ filter (λ b, accepted E mode frame b) boxes) as Hin.
  { apply list_elem_of_filter. split; [by rewrite Hok|done]. }
  destruct (filter _ boxes); [by apply elem_of_nil in Hin|simpl in Hnone; lia].
Qed.

(** X6.  Whenever the handler replies: the count is -1 exactly when no frame
    was cached, and otherwise lies between 0 and the number of boxes the
    detector returned; the size is never negative, and it is 0.0 whenever
    the count is 0. *)
Theorem reply_range (E : collaborators) (target : string) (s : node)
    (resp : DetectObject_Response) :
  (handle_detection_request E target s).1 = Returns resp →
  (count resp = -1 ↔ cam_image s = None)
  ∧ -1 ≤ count resp
  ∧ (0 <= size resp)%Q
  ∧ (count resp = 0 → size resp = 0%Q)
  ∧ ∀ r frame, cam_image s = Some r → heap s !! r = Some frame →
      count resp ≤ Z.of_nat (length (detected_boxes E s target frame)).
Proof.
  intros Hresp. destruct (cam_image s) as [r|] eqn:Hcam.
  - destruct (decide (target ∈ valid_targets)) as [Hin|Hout].
    + destruct (heap s !! r) as [frame|] eqn:Hr.
      * rewrite (handle_pass E target r frame s Hcam Hr Hin) in Hresp.
        cbn [fst] in Hresp. injection Hresp as <-. cbn [count size].
        pose proof (pass_result_count_nonneg E target frame
                      (detected_boxes E s target frame)) as Hnn.
        split; [split; [lia|done]|]. split; [lia|].
        split; [apply pass_result_size_nonneg|].
        split; [apply pass_result_none_counted|].
        intros r' frame' Hr' Hframe'. injection Hr' as <-.
        rewrite Hr in Hframe'. injection Hframe' as <-.
        apply pass_result_count_le.
      * by rewrite (handle_dangling E target r s Hcam Hr Hin) in Hresp.
    + rewrite (handle_unknown E target r s Hcam Hout) in Hresp.
      cbn [fst] in Hresp. injection Hresp as <-. cbn [count size].
      split; [split; [lia|done]|]. split; [lia|]. split; [done|].
      split; [done|]. intros. lia.
  - rewrite (handle_no_frame E target s Hcam) in Hresp.
    cbn [fst] in Hresp. injection Hresp as <-. cbn [count size].
    split; [done|]. split; [lia|]. split; [done|]. split; [lia|]. intros; done.
Qed.

Lemma reply_range_witness :
  (handle_detection_request
     (Demo.scripted [[Demo.box 0 0 2 2; Demo.box 1 1 2 2]] (λ _, ["GO"%string]))
     "stop" (Demo.holding (Demo.plain 4 4 [0; 0; 0]))).1
  = Returns {| count := 0; size := 0 |}
  ∧ (count {| count := 0; size := 0 |} = -1
     ↔ cam_image (Demo.holding (Demo.plain 4 4 [0; 0; 0])) = None).
Proof.
  assert ((handle_detection_request
             (Demo.scripted [[Demo.box 0 0 2 2; Demo.box 1 1 2 2]]
                (λ _, ["GO"%string]))
             "stop" (Demo.holding (Demo.plain 4 4 [0; 0; 0]))).1
          = Returns {| count := 0; size := 0 |}) as Hresp by (by vm_compute).
  split; [exact Hresp|].
  destruct (reply_range _ _ _ _ Hresp) as [H _]. exact H.
Defined.

(** X12.  When the detector returns no box, the pass still runs to its end:
    the reply is (0, 0.0), the frame is published unannotated on the debug
    topic, and the cached frame is consumed. *)
Theorem pass_without_boxes (E : collaborators) (s : node) (r : ref)
    (frame : ndarray) (mode : string) :
  cam_image s = Some r → heap s !! r = Some frame → mode ∈ valid_targets →
  concat (yolo_predict E (model_path_of s mode) frame (class_of mode)) = [] →
  (handle_detection_request E mode s).1 = Returns {| count := 0; size := 0 |}
  ∧ trace (handle_detection_request E mode s).2
    = trace s ++ [predict (model_path_of s mode) frame (class_of mode);
                  publish "yolo_detection_window" frame "bgr8"]
  ∧ cam_image (handle_detection_request E mode s).2 = None.
Proof.
  intros Hcam Hr Hmode Hnone.
  rewrite (handle_pass E mode r frame s Hcam Hr Hmode). cbn [fst snd].
  unfold after_pass, pass_events, detected_boxes. rewrite Hnone. by split.
Qed.

Lemma pass_without_boxes_witness :
  (handle_detection_request (Demo.scripted [[]; []] (λ _, [])) "person"
     (Demo.holding (Demo.plain 2 2 [0; 0; 0]))).1
  = Returns {| count := 0; size := 0 |}.
Proof.
  destruct (pass_without_boxes (Demo.scripted [[]; []] (λ _, []))
              (Demo.holding (Demo.plain 2 2 [0; 0; 0])) 0%nat
              (Demo.plain 2 2 [0; 0; 0]) "person"%string) as [H _].
  - reflexivity.
  - reflexivity.
  - by_compute.
  - reflexivity.
  - exact H.
Defined.

(** X13.  Which model a request runs: stop requests run the model of
    [coco_model_path] with the class filter 11, person requests the same
    model with the class filter 0, and tire requests the model of
    [tire_model_path] with the class filter 0; the paths are the values the
    parameters had when the node was built. *)
Theorem model_and_class_of_target (E : collaborators) (p : parameters)
    (s : node) (r : ref) (frame : ndarray) :
  cam_image s = Some r → heap s !! r = Some frame →
  filter is_predict (trace (handle_detection_request E "stop" s).2)
  = filter is_predict (trace s) ++ [predict (model_coco_path s) frame 11]
  ∧ filter is_predict (trace (handle_detection_request E "person" s).2)
    = filter is_predict (trace s) ++ [predict (model_coco_path s) frame 0]
  ∧ filter is_predict (trace (handle_detection_request E "tire" s).2)
    = filter is_predict (trace s) ++ [predict (model_tire_path s) frame 0]
  ∧ model_coco_path (init p) = coco_model_path p
  ∧ model_tire_path (init p) = tire_model_path p.
Proof.
  intros Hcam Hr.
  assert (∀ mode, mode ∈ valid_targets →
            filter is_predict (trace (handle_detection_request E mode s).2)
            = filter is_predict (trace s)
              ++ [predict (model_path_of s mode) frame (class_of mode)]) as H.
  { intros mode Hmode. rewrite (handle_pass E mode r frame s Hcam Hr Hmode).
    apply after_pass_predicts. }
  rewrite !H by by_compute. by repeat split.
Qed.

Lemma model_and_class_of_target_witness :
  filter is_predict
    (trace (handle_detection_request (Demo.scripted [] (λ _, [])) "stop"
              (with_cam_image (Some 0%nat)
                 (with_heap {[ 0%nat := Demo.plain 1 1 [0; 0; 0] ]}
                    (init (Demo.config 2 false))))).2)
  = [predict "coco.pt" (Demo.plain 1 1 [0; 0; 0]) 11].
Proof.
  destruct (model_and_class_of_target (Demo.scripted [] (λ _, [])) declared
              (with_cam_image (Some 0%nat)
                 (with_heap {[ 0%nat := Demo.plain 1 1 [0; 0; 0] ]}
                    (init (Demo.config 2 false))))
              0%nat (Demo.plain 1 1 [0; 0; 0])) as [H _].
  - reflexivity.
  - reflexivity.
  - rewrite H. by vm_compute.
Defined.

Lemma tally_attained (E : collaborators) (mode : string) (frame : ndarray)
    (image_size : Z) (boxes : list Box) (acc : Z * Q) :
  (foldl (tally E mode frame image_size) acc boxes).2 = acc.2
  ∨ ∃ b, b ∈ boxes ∧ accepted E mode frame b = true
         ∧ (foldl (tally E mode frame image_size) acc boxes).2
           = box_area image_size b.
Proof.
  revert acc. induction boxes as [|b boxes IH]; intros acc; simpl; [by left|].
  destruct (IH (tally E mode frame image_size acc b)) as [Heq|(b' & Hb' & Hok & Heq)].
  - rewrite Heq. unfold tally, counted.
    destruct (accepted E mode frame b) eqn:Hb; [|by left]. simpl.
    destruct (Qgtb _ _); [|by left].
    right. exists b. split; [by left|done].
  - right. exists b'. split; [by right|done].
Qed.

Lemma pass_result_le_permuted (E : collaborators) (mode : string)
    (frame : ndarray) (boxes1 boxes2 : list Box) :
  boxes1 ≡ₚ boxes2 →
  ((pass_result E mode frame boxes1).2 <= (pass_result E mode frame boxes2).2)%Q.
Proof.
  intros Hperm. unfold pass_result.
  destruct (tally_attained E mode frame (frame_area frame) boxes1 (0, 0%Q))
    as [->|(b & Hb & Hok & ->)].
  - apply (tally_grows E mode frame _ boxes2 (0, 0%Q)).
  - apply tally_covers; [by rewrite <- Hperm|done].
Qed.

(** X14.  The reply does not depend on the order in which the detector
    lists its boxes, nor on how it groups them into results: for two outputs
    with the same boxes the analyzer returns the same count and the same
    size (as a number). *)
Theorem reply_ignores_box_order (E : collaborators)
    (results1 results2 : list (list Box)) (image : ref) (mode : string)
    (frame : ndarray) (s : node) :
  heap s !! image = Some frame →
  concat results1 ≡ₚ concat results2 →
  ∃ n b1 b2,
    (analyze_results E results1 image mode s).1 = Returns (n, b1)
    ∧ (analyze_results E results2 image mode s).1 = Returns (n, b2)
    ∧ (b1 == b2)%Q.
Proof.
  intros Himg Hperm.
  rewrite !(analyze_results_run E _ image mode frame s Himg). cbn [fst].
  exists (pass_result E mode frame (concat results1)).1,
         (pass_result E mode frame (concat results1)).2,
         (pass_result E mode frame (concat results2)).2.
  split; [by destruct (pass_result _ _ _ _)|]. split.
  - assert ((pass_result E mode frame (concat results2)).1
            = (pass_result E mode frame (concat results1)).1) as <-;
      [|by destruct (pass_result _ _ _ _)].
    unfold pass_result. rewrite !tally_count. by rewrite Hperm.
  - apply Qle_antisym; by apply pass_result_le_permuted.
Qed.

Lemma reply_ignores_box_order_witness :
  ∃ n b1 b2,
    (analyze_results (Demo.scripted [] (λ _, []))
       [[Demo.box 0 0 1 1; Demo.box 0 0 2 2]] 0%nat "tire"
       (Demo.holding (Demo.plain 4 4 [0; 0; 0]))).1 = Returns (n, b1)
    ∧ (analyze_results (Demo.scripted [] (λ _, []))
         [[Demo.box 0 0 2 2]; [Demo.box 0 0 1 1]] 0%nat "tire"
         (Demo.holding (Demo.plain 4 4 [0; 0; 0]))).1 = Returns (n, b2)
    ∧ (b1 == b2)%Q.
Proof.
  apply (reply_ignores_box_order (Demo.scripted [] (λ _, []))
           [[Demo.box 0 0 1 1; Demo.box 0 0 2 2]]
           [[Demo.box 0 0 2 2]; [Demo.box 0 0 1 1]] 0%nat "tire"
           (Demo.plain 4 4 [0; 0; 0])).
  - reflexivity.
  - simpl. apply Permutation_swap.
Defined.

(** ** The text test *)

Lemma scan_log_until_match (pre post : list string) (hit : string) :
  Forall (λ t, spells_stop t = false) pre → spells_stop hit = true →
  reads_stop (pre ++ hit :: post) = true
  ∧ scan_log (pre ++ hit :: post) = (sign_reads <$> pre) ++ [sign_reads hit].
Proof.
  unfold spells_stop. intros Hpre Hhit.
  induction Hpre as [|t pre Ht _ [IH1 IH2]]; simpl.
  - by rewrite Hhit.
  - by rewrite Ht, IH1, IH2.
Qed.

Lemma scan_log_no_match (readings : list string) :
  Forall (λ t, spells_stop t = false) readings →
  reads_stop readings = false ∧ scan_log readings = sign_reads <$> readings.
Proof.
  unfold spells_stop.
  induction 1 as [|t readings Ht _ [IH1 IH2]]; simpl; [done|].
  by rewrite Ht, IH1, IH2.
Qed.

(** X7.  The validator stops at the first reading that contains STOP: it
    returns true, and the log has a line for each reading up to that one and
    none for the readings after it.  When no reading contains STOP it
    returns false and the log has a line for every reading.  In both cases
    the reader is called once and nothing else happens to the node. *)
Theorem validator_stops_at_first_match (E : collaborators)
    (sign_image : ndarray) (s : node) :
  (∀ pre hit post,
     reader_readtext E (cv2_cvtColor E sign_image Cv2.COLOR_BGR2RGB)
     = pre ++ hit :: post →
     Forall (λ t, spells_stop t = false) pre → spells_stop hit = true →
     stopsign_ocr_check E sign_image s
     = (Returns true,
        with_events
          (readtext (cv2_cvtColor E sign_image Cv2.COLOR_BGR2RGB)
           :: (sign_reads <$> pre) ++ [sign_reads hit]) s))
  ∧ (Forall (λ t, spells_stop t = false)
       (reader_readtext E (cv2_cvtColor E sign_image Cv2.COLOR_BGR2RGB)) →
     stopsign_ocr_check E sign_image s
     = (Returns false,
        with_events
          (readtext (cv2_cvtColor E sign_image Cv2.COLOR_BGR2RGB)
           :: (sign_reads
               <$> reader_readtext E
                     (cv2_cvtColor E sign_image Cv2.COLOR_BGR2RGB))) s)).
Proof.
  split.
  - intros pre hit post Hread Hpre Hhit.
    rewrite stopsign_ocr_check_run. unfold rgb_of. rewrite Hread.
    by destruct (scan_log_until_match pre post hit Hpre Hhit) as [-> ->].
  - intros Hnone. rewrite stopsign_ocr_check_run. unfold rgb_of.
    by destruct (scan_log_no_match _ Hnone) as [-> ->].
Qed.

Lemma validator_stops_at_first_match_witness :
  trace (stopsign_ocr_check
           (Demo.scripted [] (λ _, ["GO"; "one stop"; "STOP"]%string)) []
           (init declared)).2
  = trace (init declared)
    ++ [readtext []; sign_reads "GO"; sign_reads "one stop"].
Proof.
  destruct (validator_stops_at_first_match
              (Demo.scripted [] (λ _, ["GO"; "one stop"; "STOP"]%string)) []
              (init declared)) as [H _].
  rewrite (H ["GO"%string] "one stop"%string ["STOP"%string]).
  - reflexivity.
  - reflexivity.
  - by repeat constructor.
  - reflexivity.
Defined.

(** X8.  The validator accepts a region exactly when some recognised string
    contains four consecutive characters that spell STOP in any mix of upper
    and lower case; nothing else in the readings matters. *)
Theorem validator_accepts_iff (E : collaborators) (sign_image : ndarray)
    (s : node) :
  (stopsign_ocr_check E sign_image s).1 = Returns true
  ↔ ∃ text a m b,
      text ∈ reader_readtext E (cv2_cvtColor E sign_image Cv2.COLOR_BGR2RGB)
      ∧ text = a +:+ m +:+ b
      ∧ Py.upper m = "STOP"%string.
Proof.
  rewrite stopsign_ocr_check_run. cbn [fst]. unfold rgb_of. split.
  - intros H. injection H as H. apply reads_stop_iff in H as (t & Ht & Hs).
    apply spells_stop_iff in Hs as (a & m & b & Heq & Hm). by exists t, a, m, b.
  - intros (t & a & m & b & Ht & Heq & Hm). f_equal.
    apply reads_stop_iff. exists t. split; [done|].
    apply spells_stop_iff. by exists a, m, b.
Qed.

(** ** Regions of the frame *)

(** X9.  For a box whose truncated corners lie inside the frame, the region
    given to the validator or the segmenter has y2 - y1 rows and x2 - x1
    columns, and its pixel (i, j) is the pixel (y1 + i, x1 + j) of the
    frame: the bottom and right edges of the box are excluded. *)
Theorem region_of_box_inside (frame : ndarray) (h w c : nat) (box : Box)
    (x1 y1 x2 y2 : nat) :
  Np.rect h w c frame →
  (Py.int (xyxy box).1.1.1, Py.int (xyxy box).1.1.2,
   Py.int (xyxy box).1.2, Py.int (xyxy box).2)
  = (Z.of_nat x1, Z.of_nat y1, Z.of_nat x2, Z.of_nat y2) →
  (x1 ≤ x2 ≤ w)%nat → (y1 ≤ y2 ≤ h)%nat →
  Np.rect (y2 - y1) (x2 - x1) c (box_region frame box)
  ∧ ∀ i j, (i < y2 - y1)%nat → (j < x2 - x1)%nat →
      Np.pixel (box_region frame box) i j = Np.pixel frame (y1 + i) (x1 + j).
Proof.
  intros [Hlen Hrows] Hbox Hx Hy. unfold box_region.
  destruct (xyxy box) as [[[bx1 by1] bx2] by2]. simpl in Hbox.
  injection Hbox as -> -> -> ->. unfold Np.crop.
  rewrite slice_inside by lia.
  assert (Forall (λ row : list (list Z),
                    length row = w ∧ Forall (λ px, length px = c) row)
            (take (y2 - y1) (drop y1 frame))) as Hsub.
  { apply Forall_take, Forall_drop, Hrows. }
  split; [split|].
  - rewrite length_fmap, length_take, length_drop. lia.
  - apply Forall_fmap. eapply Forall_impl; [exact Hsub|].
    intros row [Hw Hpx]. simpl. rewrite slice_inside by lia.
    split; [rewrite length_take, length_drop; lia|].
    by apply Forall_take, Forall_drop.
  - intros i j Hi Hj. unfold Np.pixel.
    rewrite list_lookup_fmap, lookup_take_lt, lookup_drop by lia.
    destruct (frame !! (y1 + i)%nat) as [row|] eqn:Hrow; simpl; [|done].
    destruct (Forall_lookup_1 _ _ _ _ Hrows Hrow) as [Hw _].
    rewrite slice_inside by lia.
    by rewrite lookup_take_lt, lookup_drop by lia.
Qed.

Lemma region_of_box_inside_witness :
  Np.rect 1 2 1
    (box_region [[[1]; [2]; [3]]; [[4]; [5]; [6]]; [[7]; [8]; [9]]]
       (Demo.box 1 0 3 1)).
Proof.
  destruct (region_of_box_inside
              [[[1]; [2]; [3]]; [[4]; [5]; [6]]; [[7]; [8]; [9]]] 3 3 1
              (Demo.box 1 0 3 1) 1 0 3 1) as [H _].
  - split; [reflexivity|]. repeat constructor.
  - reflexivity.
  - lia.
  - lia.
  - exact H.
Defined.

(** X10.  Slicing never fails and never reaches outside the frame: a box
    whose truncated top and bottom (or left and right) coincide, or whose
    top lies at or below the last row (or whose left lies at or right of the
    last column), yields a region without a single pixel. *)
Theorem region_of_box_outside (frame : ndarray) (h w c : nat) (box : Box) :
  Np.rect h w c frame →
  Py.int (xyxy box).1.1.2 = Py.int (xyxy box).2
  ∨ Py.int (xyxy box).1.1.1 = Py.int (xyxy box).1.2
  ∨ Z.of_nat h ≤ Py.int (xyxy box).1.1.2
  ∨ Z.of_nat w ≤ Py.int (xyxy box).1.1.1 →
  ∀ i j, Np.pixel (box_region frame box) i j = None.
Proof.
  intros [Hlen Hrows] Hbox i j. unfold box_region.
  destruct (xyxy box) as [[[x1 y1] x2] y2]. simpl in Hbox.
  unfold Np.crop, Np.pixel. rewrite list_lookup_fmap.
  destruct Hbox as [Hy|[Hx|[Hy|Hx]]].
  - by rewrite Hy, slice_same.
  - rewrite Hx. destruct (Py.slice frame _ _ !! i); simpl; [|done].
    by rewrite slice_same.
  - by rewrite slice_beyond by lia.
  - destruct (Py.slice frame _ _ !! i) as [row|] eqn:Hrow; simpl; [|done].
    unfold Py.slice in Hrow. apply lookup_take_Some in Hrow as [Hrow _].
    rewrite lookup_drop in Hrow.
    destruct (Forall_lookup_1 _ _ _ _ Hrows Hrow) as [Hw _].
    by rewrite slice_beyond by lia.
Qed.

Lemma region_of_box_outside_witness :
  Np.pixel (box_region (Demo.plain 4 4 [0; 0; 0]) (Demo.box 7 7 9 9)) 0 0 = None.
Proof.
  apply (region_of_box_outside (Demo.plain 4 4 [0; 0; 0]) 4 4 3 (Demo.box 7 7 9 9)).
  - split; [reflexivity|]. repeat constructor.
  - right. right. left. by vm_compute.
Defined.

Lemma validator_accepts_iff_witness :
  (stopsign_ocr_check (Demo.scripted [] (λ _, ["bus stop 5"%string])) []
     (init declared)).1
  = Returns true.
Proof.
  apply (validator_accepts_iff (Demo.scripted [] (λ _, ["bus stop 5"%string])) []
           (init declared)).
  exists "bus stop 5"%string, "bus "%string, "stop"%string, " 5"%string.
  split; [by_compute|]. split; reflexivity.
Defined.

(** X11.  The two flips of the preprocessor can be taken in either order,
    together they are the flip around both axes, and applying the pair twice
    gives the frame back. *)
Theorem flips_commute (img : ndarray) :
  Cv2.flip (Cv2.flip img 0) 1 = Cv2.flip (Cv2.flip img 1) 0
  ∧ Cv2.flip (Cv2.flip img 0) 1 = Cv2.flip img (-1)
  ∧ Cv2.flip (Cv2.flip (Cv2.flip (Cv2.flip img 0) 1) 0) 1 = img.
Proof.
  assert (Cv2.flip (Cv2.flip img 1) 0 = reverse (reverse <$> img)) as H10
    by reflexivity.
  assert (Cv2.flip img (-1) = reverse (reverse <$> img)) as Hneg by reflexivity.
  rewrite !flip_twice, H10, Hneg, !fmap_reverse.
  split; [done|]. split; [done|].
  rewrite reverse_involutive, <- list_fmap_compose.
  rewrite <- (list_fmap_id img) at 2. apply list_fmap_ext.
  intros _ row _. apply reverse_involutive.
Qed.

(** ** The store of arrays *)

Lemma handle_keeps_arrays (E : collaborators) (target : string) (s : node)
    (r : ref) (a : ndarray) :
  heap s !! r = Some a →
  heap (handle_detection_request E target s).2 !! r = Some a.
Proof.
  intros Ha. destruct (cam_image s) as [r0|] eqn:Hcam.
  - destruct (decide (target ∈ valid_targets)) as [Hin|Hout].
    + destruct (heap s !! r0) as [frame|] eqn:Hr.
      * rewrite (handle_pass E target r0 frame s Hcam Hr Hin). cbn [snd].
        unfold after_pass. cbn [heap with_cam_image with_events with_heap].
        assert (r ≠ fresh (dom (heap s))) as Hne1.
        { intros ->. by rewrite fresh_ref_unused in Ha. }
        assert ((<[fresh (dom (heap s)) := frame]> (heap s)) !! r = Some a) as Ha'
          by by rewrite lookup_insert_ne.
        rewrite lookup_insert_ne; [done|].
        intros Heq. rewrite <- Heq in Ha'. by rewrite fresh_ref_unused in Ha'.
      * by rewrite (handle_dangling E target r0 s Hcam Hr Hin).
    + by rewrite (handle_unknown E target r0 s Hcam Hout).
  - by rewrite (handle_no_frame E target s Hcam).
Qed.

Lemma image_callback_keeps_arrays (E : collaborators) (msg : ROSImage)
    (s : node) (r : ref) (a : ndarray) :
  heap s !! r = Some a →
  heap (image_callback E msg s).2 !! r = Some a.
Proof.
  intros Ha. destruct (imgmsg_to_cv2 E msg "bgr8") as [e|img] eqn:Hmsg.
  - by rewrite (image_callback_error E msg e s Hmsg).
  - rewrite (image_callback_run E msg img s Hmsg). cbn.
    rewrite lookup_insert_ne; [done|].
    intros Heq. rewrite <- Heq in Ha. by rewrite fresh_ref_unused in Ha.
Qed.

(** X15.  No callback writes to an array that existed before it ran: the
    handler draws only on the copy it made, and a frame arrival stores its
    frame in a new array.  So over any run an array of the store keeps its
    content. *)
Theorem arrays_are_never_overwritten (E : collaborators) (cbs : list callback)
    (s : node) (r : ref) (a : ndarray) :
  heap s !! r = Some a →
  heap (spin E cbs s).2 !! r = Some a.
Proof.
  revert s. induction cbs as [|cb cbs IH]; intros s Ha; [done|].
  assert (heap (dispatch E cb s).2 !! r = Some a) as Hstep.
  { rewrite dispatch_state. destruct cb as [msg|target];
      [by apply image_callback_keeps_arrays | by apply handle_keeps_arrays]. }
  cbn [spin]. destruct (dispatch E cb s) as [[o|e] s']; cbn [snd] in *; [|done].
  specialize (IH s' Hstep). by destruct (spin E cbs s') as [rs s''].
Qed.

Lemma arrays_are_never_overwritten_witness :
  heap
    (spin (Demo.scripted [[Demo.box 0 0 1 1]] (λ _, []))
       [on_request "tire"; on_image (Demo.bgr8 1 1 [4; 5; 6]); on_request "person"]
       (Demo.holding (Demo.plain 2 2 [1; 2; 3]))).2 !! 0%nat
  = Some (Demo.plain 2 2 [1; 2; 3]).
Proof.
  apply (arrays_are_never_overwritten (Demo.scripted [[Demo.box 0 0 1 1]] (λ _, []))).
  reflexivity.
Defined.
